(** * restic_wrapper: the orchestration logic of [cmd/main.go]

    A shallow embedding of the backup wrapper: the configuration record, the
    external collaborators (lock file, keychain, power status, backup engine,
    metrics sink) as an explicit record of answers, and [main] with its
    helpers as computations over the process environment that record a trace
    of the effects they perform. *)

From Stdlib Require Import ZArith Ascii String List.
From stdpp Require Import base option list gmap strings.

(** ** Go strings

    Go strings are byte sequences; [string] is a list of 8-bit characters. *)

Module GoStrings.

(** The ASCII members of Go's [unicode.IsSpace]:
    ['\t'], ['\n'], ['\v'], ['\f'], ['\r'], [' ']. *)
Definition asciiSpace (c : ascii) : bool :=
  let n := nat_of_ascii c in
  ((9 <=? n) && (n <=? 13)) || (n =? 32).

(** The UTF-8 encodings of the other code points of [unicode.IsSpace]:
    U+0085, U+00A0, U+1680, U+2000..U+200A, U+2028, U+2029, U+202F, U+205F,
    U+3000. *)
Definition utf8Space2 (a b : ascii) : bool :=
  (nat_of_ascii a =? 194) && ((nat_of_ascii b =? 133) || (nat_of_ascii b =? 160)).

Definition utf8Space3 (a b c : ascii) : bool :=
  let x := nat_of_ascii a in
  let y := nat_of_ascii b in
  let z := nat_of_ascii c in
  ((x =? 225) && (y =? 154) && (z =? 128))
  || ((x =? 226) && (y =? 128)
      && (((128 <=? z) && (z <=? 138)) || (z =? 168) || (z =? 169) || (z =? 175)))
  || ((x =? 226) && (y =? 129) && (z =? 159))
  || ((x =? 227) && (y =? 128) && (z =? 128)).

(** [strings.TrimLeftFunc (s, unicode.IsSpace)] on the bytes of [s];
    [fuel] bounds the number of runes dropped. *)
Fixpoint trimLeft (fuel : nat) (s : list ascii) : list ascii :=
  match fuel with
  | O => s
  | S fuel' =>
      match s with
      | a :: r1 =>
          if asciiSpace a then trimLeft fuel' r1
          else
            match r1 with
            | b :: r2 =>
                if utf8Space2 a b then trimLeft fuel' r2
                else
                  match r2 with
                  | c :: r3 => if utf8Space3 a b c then trimLeft fuel' r3 else s
                  | [] => s
                  end
            | [] => s
            end
      | [] => s
      end
  end.

(** The right end is trimmed the same way, on the reversed bytes. *)
Fixpoint trimRightRev (fuel : nat) (s : list ascii) : list ascii :=
  match fuel with
  | O => s
  | S fuel' =>
      match s with
      | a :: r1 =>
          if asciiSpace a then trimRightRev fuel' r1
          else
            match r1 with
            | b :: r2 =>
                if utf8Space2 b a then trimRightRev fuel' r2
                else
                  match r2 with
                  | c :: r3 => if utf8Space3 c b a then trimRightRev fuel' r3 else s
                  | [] => s
                  end
            | [] => s
            end
      | [] => s
      end
  end.

(** [strings.TrimSpace] (and [bytes.TrimSpace]): all leading and trailing
    white space removed. *)
Definition TrimSpace (s : string) : string :=
  let l := list_ascii_of_string s in
  let l1 := trimLeft (length l) l in
  let l2 := rev l1 in
  string_of_list_ascii (rev (trimRightRev (length l2) l2)).

Definition newline : ascii := ascii_of_nat 10.

(** [strings.Split (s, "\n")]: the pieces of [s] between newlines; never
    the empty list, splitting the empty string gives one empty piece. *)
Fixpoint SplitLines (s : string) : list string :=
  match s with
  | EmptyString => [EmptyString]
  | String c r =>
      if Ascii.eqb c newline then EmptyString :: SplitLines r
      else
        match SplitLines r with
        | h :: t => String c h :: t
        | [] => [String c EmptyString]
        end
  end.

(** [strings.Contains (s, substr)]. *)
Fixpoint Contains (s substr : string) : bool :=
  String.prefix substr s ||
  match s with
  | EmptyString => false
  | String _ r => Contains r substr
  end.

End GoStrings.

Import GoStrings.

(** ** Configuration ([Config], [appConfig]) *)

Record ResticConfig := {
  Path : string;
  FilesFrom : string;
  ExcludeFile : string;
  S3Storage : string;
}.

Record Config := {
  BackupDir : string;
  LockFile : string;
  LogFile : string;
  Restic : ResticConfig;
  HostName : string;
  SecurityService : string;
  RequireAcPower : bool;
  CleanupOldBackups : bool;
}.

(** ** The outside world

    A Go [error] is [None] for [nil] and [Some] of its text otherwise. *)

Definition error : Type := option string.

(** What the external collaborators answer during one run.  Each field is the
    result of the library call named in its comment. *)
Record World := {
  (** [filepath.Join] *)
  filepath_Join : string -> string -> string;
  (** [fileLock.TryLock()] on the lock at the given path: [(locked, err)] *)
  flock_TryLock : string -> bool * error;
  (** [exec.LookPath]: the [err] it returns *)
  exec_LookPath : string -> error;
  (** [cmd.Output()] of the [pmset] command *)
  pmset_Output : string * error;
  (** [cmd.CombinedOutput()] of [security] with the given arguments; the
      error covers a non-zero exit and the one-minute deadline *)
  security_CombinedOutput : list string -> string * error;
  (** [cmd.Run()] of the engine at a path, with arguments and an
      environment: [(stdout, stderr, err)] *)
  restic_Run : string -> list string -> gmap string string -> string * string * error;
  (** [config.LoadDefaultConfig] *)
  aws_LoadDefaultConfig : error;
  (** [svc.PutMetricData] *)
  aws_PutMetricData : error;
  (** [time.Since (startTime)], in nanoseconds *)
  time_Since : Z;
}.

(** ** Effects *)

Inductive Level := InfoLevel | WarnLevel | ErrorLevel | FatalLevel.

Inductive FieldValue :=
| VStr (s : string)
| VErr (e : string)
| VDuration (d : Z).

(** One logrus entry: level, fields, message. *)
Record Entry := {
  level : Level;
  fields : list (string * FieldValue);
  message : string;
}.

Inductive Event :=
| EvTryLock (path : string)
| EvUnlock (path : string)
| EvCancel
| EvLookPath (path : string)
| EvPmset (args : list string)
| EvSecurity (args : list string)
| EvSetenv (key value : string)
| EvEngine (path : string) (args : list string) (env : gmap string string)
| EvLoadAwsConfig
| EvPutMetricData (host : string) (duration : Z)
| EvLog (e : Entry).

(** How a Go function call ends: it returns a value, the process is ended by
    [os.Exit], or a run-time panic unwinds the stack. *)
Inductive Outcome (A : Type) :=
| Returns (a : A)
| OsExit (code : Z)
| Panics (msg : string).
Arguments Returns {A} a.
Arguments OsExit {A} code.
Arguments Panics {A} msg.

(** A computation reads and updates the process environment and appends to
    the trace of effects. *)
Definition M (A : Type) : Type :=
  gmap string string -> Outcome A * gmap string string * list Event.

Definition ret {A} (a : A) : M A := fun env => (Returns a, env, []).

Definition bind {A B} (m : M A) (k : A -> M B) : M B :=
  fun env =>
    match m env with
    | (Returns a, env1, t1) =>
        let '(o, env2, t2) := k a env1 in (o, env2, t1 ++ t2)
    | (OsExit c, env1, t1) => (OsExit c, env1, t1)
    | (Panics msg, env1, t1) => (Panics msg, env1, t1)
    end.

Notation "x <- m ;; k" := (bind m (fun x => k))
  (at level 100, m at next level, right associativity, only parsing).
Notation "m ;;; k" := (bind m (fun _ => k))
  (at level 100, right associativity, only parsing).

Definition emit (e : Event) : M unit := fun env => (Returns tt, env, [e]).

(** [os.Exit (code)]: the process ends at once; deferred calls do not run. *)
Definition os_Exit {A} (code : Z) : M A := fun env => (OsExit code, env, []).

Definition panic {A} (msg : string) : M A := fun env => (Panics msg, env, []).

(** [os.Environ()] *)
Definition os_Environ : M (gmap string string) := fun env => (Returns env, env, []).

(** Whether a string holds the byte [b]. *)
Fixpoint hasByte (b : ascii) (s : string) : bool :=
  match s with
  | EmptyString => false
  | String c r => Ascii.eqb c b || hasByte b r
  end.

Definition nul : ascii := ascii_of_nat 0.

Definition equalsSign : ascii := ascii_of_nat 61.

(** The arguments [syscall.Setenv] accepts: a key that is not empty and
    holds neither ['='] nor a NUL byte, and a value without NUL byte.  For
    any other arguments it returns [EINVAL] and sets nothing. *)
Definition setenvValid (key value : string) : bool :=
  negb (String.eqb key EmptyString)
  && negb (hasByte equalsSign key)
  && negb (hasByte nul key)
  && negb (hasByte nul value).

(** The environment after the call [os.Setenv (key, value)]. *)
Definition envSet (key value : string) (env : gmap string string) : gmap string string :=
  if setenvValid key value then <[key := value]> env else env.

(** [os.Setenv (key, value)]: the variable is set when the arguments are
    accepted; otherwise the environment stays as it is and the error is
    returned.  The event records the call. *)
Definition os_Setenv (key value : string) : M error :=
  fun env =>
    (Returns (if setenvValid key value then None else Some "setenv: invalid argument"),
     envSet key value env, [EvSetenv key value]).

(** [defer d] placed just before [body]: [d] runs when [body] returns or
    panics, and does not run when the process is ended by [os.Exit]. *)
Definition defer {A} (d : M unit) (body : M A) : M A :=
  fun env =>
    match body env with
    | (OsExit c, env1, t1) => (OsExit c, env1, t1)
    | (o, env1, t1) => let '(_, env2, t2) := d env1 in (o, env2, t1 ++ t2)
    end.

(** ** Logging *)

Definition logEntry (lvl : Level) (fs : list (string * FieldValue)) (msg : string) : M unit :=
  emit (EvLog {| level := lvl; fields := fs; message := msg |}).

Definition log_Info := logEntry InfoLevel.
Definition log_Warn := logEntry WarnLevel.
Definition log_Error := logEntry ErrorLevel.

(** [log.Fatal]: the entry is written, then [os.Exit (1)]. *)
Definition log_Fatal {A} (fs : list (string * FieldValue)) (msg : string) : M A :=
  logEntry FatalLevel fs msg ;;; os_Exit 1.

(** ** The helpers of [main.go] *)

Section Program.

Variable appConfig : Config.
Variable world : World.

(** [isOnPower] *)
Definition isOnPower : M (bool * error) :=
  let args := ["-g"; "ps"; "|"; "grep"; "head"; "-1"] in
  emit (EvPmset args) ;;;
  let '(output, err) := pmset_Output world in
  match err with
  | Some e => ret (false, Some ("failed to execute pmset: " +:+ e))
  | None =>
      let outputStr := TrimSpace output in
      ret (Contains outputStr "AC Power", None)
  end.

(** [getSecurityData] *)
Definition getSecurityData (service account : string) : M string :=
  let args := ["find-generic-password"; "-s"; service; "-a"; account; "-w"] in
  emit (EvSecurity args) ;;;
  let '(out, err) := security_CombinedOutput world args in
  match err with
  | Some e =>
      log_Fatal [("cmd", VStr "security"); ("err", VErr e); ("srv", VStr service)]
                "cannot get security data"
  | None => ret (TrimSpace out)
  end.

(** [args[0]]: a run-time panic when [args] is empty. *)
Definition index0 (args : list string) : M string :=
  match args with
  | a :: _ => ret a
  | [] => panic "runtime error: index out of range [0] with length 0"
  end.

(** The two [for _, line := range ...] loops of [runResticCommand]: each
    non-empty line is logged at [lvl] with the [cmd] and [operation]
    fields. *)
Fixpoint logLines (lvl : Level) (args : list string) (lines : list string) : M unit :=
  match lines with
  | [] => ret tt
  | line :: rest =>
      (if String.eqb line EmptyString then ret tt
       else
         op <- index0 args ;;
         logEntry lvl [("cmd", VStr (Path (Restic appConfig))); ("operation", VStr op)] line) ;;;
      logLines lvl args rest
  end.

(** [runResticCommand] *)
Definition runResticCommand (args : list string) : M error :=
  env <- os_Environ ;;
  emit (EvEngine (Path (Restic appConfig)) args env) ;;;
  let '(stdout, stderr, err) := restic_Run world (Path (Restic appConfig)) args env in
  match err with
  | Some e =>
      logLines ErrorLevel args (SplitLines (TrimSpace stderr)) ;;;
      op <- index0 args ;;
      log_Error [("cmd", VStr (Path (Restic appConfig))); ("operation", VStr op);
                 ("err", VErr e)]
                "failed to execute the command" ;;;
      ret (Some e)
  | None =>
      logLines InfoLevel args (SplitLines (TrimSpace stdout)) ;;;
      ret None
  end.

(** [sendAwsMetrics] *)
Definition sendAwsMetrics (duration : Z) : M error :=
  emit EvLoadAwsConfig ;;;
  match aws_LoadDefaultConfig world with
  | Some e =>
      log_Error [("err", VErr e)] "cannot load AWS SDK config" ;;;
      ret (Some e)
  | None =>
      emit (EvPutMetricData (HostName appConfig) duration) ;;;
      match aws_PutMetricData world with
      | Some e =>
          log_Error [("err", VErr e)] "cannot put metric data to CloudWatch" ;;;
          ret (Some e)
      | None =>
          log_Info [] "Sent backup metrics to CloudWatch" ;;;
          ret None
      end
  end.

(** [setupEnv]; the error of [os.Setenv] is not looked at. *)
Definition setupEnv : M unit :=
  (v <- getSecurityData (SecurityService appConfig) "aws-region" ;;
   os_Setenv "AWS_DEFAULT_REGION" v) ;;;
  (v <- getSecurityData (SecurityService appConfig) "aws-access-key-id" ;;
   os_Setenv "AWS_ACCESS_KEY_ID" v) ;;;
  (v <- getSecurityData (SecurityService appConfig) "aws-secret-access-key" ;;
   os_Setenv "AWS_SECRET_ACCESS_KEY" v) ;;;
  (v <- getSecurityData (SecurityService appConfig) "repository" ;;
   os_Setenv "RESTIC_REPOSITORY" v) ;;;
  (v <- getSecurityData (SecurityService appConfig) "password" ;;
   os_Setenv "RESTIC_PASSWORD" v) ;;;
  ret tt.

Definition backupArgs : list string :=
  ["backup";
   "-o"; "s3.storage-class=" +:+ S3Storage (Restic appConfig);
   "--files-from"; filepath_Join world (BackupDir appConfig) (FilesFrom (Restic appConfig));
   "--exclude-file"; filepath_Join world (BackupDir appConfig) (ExcludeFile (Restic appConfig))].

Definition forgetArgs : list string :=
  ["forget"; "-q"; "--prune";
   "--keep-hourly"; "4"; "--keep-daily"; "7"; "--keep-weekly"; "5";
   "--keep-monthly"; "12"; "--keep-yearly"; "5"; "--keep-tag"; "nodelete"].

(** The part of [main] after the two [defer] statements. *)
Definition mainBody : M unit :=
  emit (EvLookPath (Path (Restic appConfig))) ;;;
  match exec_LookPath world (Path (Restic appConfig)) with
  | Some _ =>
      log_Error [("cmd", VStr (Path (Restic appConfig)))] "cannot find the restic command"
  | None =>
      r <- isOnPower ;;
      let '(isAcPower, err) := r in
      match err with
      | Some e =>
          log_Error [("err", VErr e)] "cannot check if the system is running on AC power"
      | None =>
          if RequireAcPower appConfig && negb isAcPower then
            log_Warn [] "The system is not running on AC power. Skipping backup."
          else
            setupEnv ;;;
            err <- runResticCommand backupArgs ;;
            match err with
            | Some _ =>
                log_Error [("cmd", VStr (Path (Restic appConfig))); ("command", VStr "backup")]
                          "Backup failed" ;;;
                os_Exit 1
            | None =>
                (if CleanupOldBackups appConfig then
                   err <- runResticCommand forgetArgs ;;
                   match err with
                   | Some _ =>
                       log_Error [("cmd", VStr (Path (Restic appConfig)));
                                  ("command", VStr "forget")]
                                 "Forget failed"
                   | None => ret tt
                   end
                 else ret tt) ;;;
                let elapsedTime := time_Since world in
                err <- sendAwsMetrics elapsedTime ;;
                (match err with
                 | Some e =>
                     log_Error [("err", VErr e)] "cannot send backup metrics to CloudWatch"
                 | None => ret tt
                 end) ;;;
                log_Info [("duration", VDuration elapsedTime)] "Backup completed successfully"
            end
      end
  end.

(** [main] *)
Definition main : M unit :=
  let lockPath := filepath_Join world (BackupDir appConfig) (LockFile appConfig) in
  emit (EvTryLock lockPath) ;;;
  let '(locked, err) := flock_TryLock world lockPath in
  match err with
  | Some e =>
      log_Error [("err", VErr e)] "cannot lock the lock file" ;;;
      os_Exit 1
  | None =>
      if negb locked then
        log_Warn [] "Another instance of the program is already running. Exiting."
      else
        defer (emit (EvUnlock lockPath)) (defer (emit EvCancel) mainBody)
  end.

End Program.

(** ** Observations of one run of the process *)

(** The exit status of the process: [0] when [main] returns, the argument of
    [os.Exit], and [2] after an unrecovered panic. *)
Definition exitStatus {A} (o : Outcome A) : Z :=
  match o with
  | Returns _ => 0
  | OsExit c => c
  | Panics _ => 2
  end.

Record Run := {
  outcome : Outcome unit;
  finalEnv : gmap string string;
  trace : list Event;
}.

Definition run (cfg : Config) (w : World) (env0 : gmap string string) : Run :=
  let '(o, env, t) := main cfg w env0 in
  {| outcome := o; finalEnv := env; trace := t |}.

Definition isEngine (e : Event) : bool :=
  match e with EvEngine _ _ _ => true | _ => false end.

Definition isSecurity (e : Event) : bool :=
  match e with EvSecurity _ => true | _ => false end.

Definition isSetenv (e : Event) : bool :=
  match e with EvSetenv _ _ => true | _ => false end.

Definition isMetrics (e : Event) : bool :=
  match e with EvLoadAwsConfig | EvPutMetricData _ _ => true | _ => false end.

Definition isUnlock (e : Event) : bool :=
  match e with EvUnlock _ => true | _ => false end.

Definition isPmset (e : Event) : bool :=
  match e with EvPmset _ => true | _ => false end.

(** The log entries of a trace, in order. *)
Definition entries (t : list Event) : list Entry :=
  omap (fun e => match e with EvLog x => Some x | _ => None end) t.

(** How many events of a trace satisfy [p]. *)
Definition count (p : Event -> bool) (t : list Event) : nat :=
  length (List.filter p t).

(** The non-empty lines of a captured buffer, as [runResticCommand] takes
    them: the buffer is trimmed, split at newlines, and empty pieces are
    skipped. *)
Definition nonEmptyLines (buffer : string) : list string :=
  List.filter (fun line => negb (String.eqb line EmptyString)) (SplitLines (TrimSpace buffer)).

(** The entry [runResticCommand] writes for one output line. *)
Definition lineEntry (cfg : Config) (lvl : Level) (op line : string) : Entry :=
  {| level := lvl;
     fields := [("cmd", VStr (Path (Restic cfg))); ("operation", VStr op)];
     message := line |}.

(** The entry [runResticCommand] writes after a failed command. *)
Definition failedEntry (cfg : Config) (op e : string) : Entry :=
  {| level := ErrorLevel;
     fields := [("cmd", VStr (Path (Restic cfg))); ("operation", VStr op); ("err", VErr e)];
     message := "failed to execute the command" |}.

(** The five variables of [setupEnv]. *)
Definition secretVars : list string :=
  ["AWS_DEFAULT_REGION"; "AWS_ACCESS_KEY_ID"; "AWS_SECRET_ACCESS_KEY";
   "RESTIC_REPOSITORY"; "RESTIC_PASSWORD"].

(** ** Closed forms of the helpers and of [main] *)

Definition outcomeOf {A} (r : Outcome A * gmap string string * list Event) : Outcome A := r.1.1.
Definition envOf {A} (r : Outcome A * gmap string string * list Event) : gmap string string :=
  r.1.2.
Definition traceOf {A} (r : Outcome A * gmap string string * list Event) : list Event := r.2.

Definition panicIndex0 : string := "runtime error: index out of range [0] with length 0".

Definition lineEvents (cfg : Config) (lvl : Level) (op : string) (buffer : string) : list Event :=
  map (fun line => EvLog (lineEntry cfg lvl op line)) (nonEmptyLines buffer).

Definition securityArgs (service account : string) : list string :=
  ["find-generic-password"; "-s"; service; "-a"; account; "-w"].

Definition fatalEntry (service e : string) : Entry :=
  {| level := FatalLevel;
     fields := [("cmd", VStr "security"); ("err", VErr e); ("srv", VStr service)];
     message := "cannot get security data" |}.

(** The keychain accounts of [setupEnv] with the variable each one fills. *)
Definition secretTable : list (string * string) :=
  [("aws-region", "AWS_DEFAULT_REGION");
   ("aws-access-key-id", "AWS_ACCESS_KEY_ID");
   ("aws-secret-access-key", "AWS_SECRET_ACCESS_KEY");
   ("repository", "RESTIC_REPOSITORY");
   ("password", "RESTIC_PASSWORD")].

(** The statements of [setupEnv], one after the other, over a table. *)
Fixpoint setenvAll (cfg : Config) (w : World) (tbl : list (string * string)) : M unit :=
  match tbl with
  | [] => ret tt
  | (account, var) :: rest =>
      (v <- getSecurityData w (SecurityService cfg) account ;; os_Setenv var v) ;;;
      setenvAll cfg w rest
  end.

(** The variable an event sets, if it sets one. *)
Definition setenvKey (ev : Event) : option string :=
  match ev with
  | EvSetenv k _ => Some k
  | _ => None
  end.

Definition lockPath (cfg : Config) (w : World) : string :=
  filepath_Join w (BackupDir cfg) (LockFile cfg).

Definition enginePath (cfg : Config) : string := Path (Restic cfg).

Definition lockErrorEntry (e : string) : Entry :=
  {| level := ErrorLevel; fields := [("err", VErr e)]; message := "cannot lock the lock file" |}.

Definition busyEntry : Entry :=
  {| level := WarnLevel; fields := [];
     message := "Another instance of the program is already running. Exiting." |}.

Definition noEngineEntry (cfg : Config) : Entry :=
  {| level := ErrorLevel; fields := [("cmd", VStr (enginePath cfg))];
     message := "cannot find the restic command" |}.

Definition powerErrorEntry (e : string) : Entry :=
  {| level := ErrorLevel; fields := [("err", VErr ("failed to execute pmset: " +:+ e))];
     message := "cannot check if the system is running on AC power" |}.

Definition onBatteryEntry : Entry :=
  {| level := WarnLevel; fields := [];
     message := "The system is not running on AC power. Skipping backup." |}.

Definition commandFailedEntry (cfg : Config) (command msg : string) : Entry :=
  {| level := ErrorLevel;
     fields := [("cmd", VStr (enginePath cfg)); ("command", VStr command)];
     message := msg |}.

Definition completedEntry (w : World) : Entry :=
  {| level := InfoLevel; fields := [("duration", VDuration (time_Since w))];
     message := "Backup completed successfully" |}.

Definition pmsetArgs : list string := ["-g"; "ps"; "|"; "grep"; "head"; "-1"].

(** What the engine invocation [runResticCommand (op :: args)] adds to the
    trace. *)
Definition engineTrace (cfg : Config) (w : World) (op : string) (args : list string)
    (env : gmap string string) : list Event :=
  let '(stdout, stderr, err) := restic_Run w (enginePath cfg) (op :: args) env in
  EvEngine (enginePath cfg) (op :: args) env ::
  match err with
  | Some e => lineEvents cfg ErrorLevel op stderr ++ [EvLog (failedEntry cfg op e)]
  | None => lineEvents cfg InfoLevel op stdout
  end.

(** What the retention step adds to the trace. *)
Definition pruneTrace (cfg : Config) (w : World) (env : gmap string string) : list Event :=
  if CleanupOldBackups cfg then
    engineTrace cfg w "forget" (tl forgetArgs) env ++
    match restic_Run w (enginePath cfg) forgetArgs env with
    | (_, _, Some _) => [EvLog (commandFailedEntry cfg "forget" "Forget failed")]
    | (_, _, None) => []
    end
  else [].

(** What the reporting step adds to the trace. *)
Definition metricsTrace (cfg : Config) (w : World) : list Event :=
  EvLoadAwsConfig ::
  match aws_LoadDefaultConfig w with
  | Some e =>
      [EvLog {| level := ErrorLevel; fields := [("err", VErr e)];
                message := "cannot load AWS SDK config" |};
       EvLog {| level := ErrorLevel; fields := [("err", VErr e)];
                message := "cannot send backup metrics to CloudWatch" |}]
  | None =>
      EvPutMetricData (HostName cfg) (time_Since w) ::
      match aws_PutMetricData w with
      | Some e =>
          [EvLog {| level := ErrorLevel; fields := [("err", VErr e)];
                    message := "cannot put metric data to CloudWatch" |};
           EvLog {| level := ErrorLevel; fields := [("err", VErr e)];
                    message := "cannot send backup metrics to CloudWatch" |}]
      | None =>
          [EvLog {| level := InfoLevel; fields := [];
                    message := "Sent backup metrics to CloudWatch" |}]
      end
  end.

(** The eight ways a run can go, each with the answers of the outside world
    that select it and the run it produces. *)
Inductive MainPath (cfg : Config) (w : World) (env0 : gmap string string) : Run -> Prop :=
| PathLockError locked e :
    flock_TryLock w (lockPath cfg w) = (locked, Some e) ->
    MainPath cfg w env0
      {| outcome := OsExit 1; finalEnv := env0;
         trace := [EvTryLock (lockPath cfg w); EvLog (lockErrorEntry e)] |}
| PathLockBusy :
    flock_TryLock w (lockPath cfg w) = (false, None) ->
    MainPath cfg w env0
      {| outcome := Returns tt; finalEnv := env0;
         trace := [EvTryLock (lockPath cfg w); EvLog busyEntry] |}
| PathNoEngine e :
    flock_TryLock w (lockPath cfg w) = (true, None) ->
    exec_LookPath w (enginePath cfg) = Some e ->
    MainPath cfg w env0
      {| outcome := Returns tt; finalEnv := env0;
         trace := [EvTryLock (lockPath cfg w); EvLookPath (enginePath cfg);
                   EvLog (noEngineEntry cfg); EvCancel; EvUnlock (lockPath cfg w)] |}
| PathPowerError output e :
    flock_TryLock w (lockPath cfg w) = (true, None) ->
    exec_LookPath w (enginePath cfg) = None ->
    pmset_Output w = (output, Some e) ->
    MainPath cfg w env0
      {| outcome := Returns tt; finalEnv := env0;
         trace := [EvTryLock (lockPath cfg w); EvLookPath (enginePath cfg);
                   EvPmset pmsetArgs; EvLog (powerErrorEntry e);
                   EvCancel; EvUnlock (lockPath cfg w)] |}
| PathOnBattery output :
    flock_TryLock w (lockPath cfg w) = (true, None) ->
    exec_LookPath w (enginePath cfg) = None ->
    pmset_Output w = (output, None) ->
    RequireAcPower cfg = true ->
    Contains (TrimSpace output) "AC Power" = false ->
    MainPath cfg w env0
      {| outcome := Returns tt; finalEnv := env0;
         trace := [EvTryLock (lockPath cfg w); EvLookPath (enginePath cfg);
                   EvPmset pmsetArgs; EvLog onBatteryEntry;
                   EvCancel; EvUnlock (lockPath cfg w)] |}
| PathSecretFatal output env1 t1 :
    flock_TryLock w (lockPath cfg w) = (true, None) ->
    exec_LookPath w (enginePath cfg) = None ->
    pmset_Output w = (output, None) ->
    RequireAcPower cfg && negb (Contains (TrimSpace output) "AC Power") = false ->
    setupEnv cfg w env0 = (OsExit 1, env1, t1) ->
    MainPath cfg w env0
      {| outcome := OsExit 1; finalEnv := env1;
         trace := [EvTryLock (lockPath cfg w); EvLookPath (enginePath cfg);
                   EvPmset pmsetArgs] ++ t1 |}
| PathBackupFailed output env1 t1 stdout stderr e :
    flock_TryLock w (lockPath cfg w) = (true, None) ->
    exec_LookPath w (enginePath cfg) = None ->
    pmset_Output w = (output, None) ->
    RequireAcPower cfg && negb (Contains (TrimSpace output) "AC Power") = false ->
    setupEnv cfg w env0 = (Returns tt, env1, t1) ->
    restic_Run w (enginePath cfg) (backupArgs cfg w) env1 = (stdout, stderr, Some e) ->
    MainPath cfg w env0
      {| outcome := OsExit 1; finalEnv := env1;
         trace := [EvTryLock (lockPath cfg w); EvLookPath (enginePath cfg);
                   EvPmset pmsetArgs] ++ t1
                  ++ engineTrace cfg w "backup" (tl (backupArgs cfg w)) env1
                  ++ [EvLog (commandFailedEntry cfg "backup" "Backup failed")] |}
| PathCompleted output env1 t1 stdout stderr :
    flock_TryLock w (lockPath cfg w) = (true, None) ->
    exec_LookPath w (enginePath cfg) = None ->
    pmset_Output w = (output, None) ->
    RequireAcPower cfg && negb (Contains (TrimSpace output) "AC Power") = false ->
    setupEnv cfg w env0 = (Returns tt, env1, t1) ->
    restic_Run w (enginePath cfg) (backupArgs cfg w) env1 = (stdout, stderr, None) ->
    MainPath cfg w env0
      {| outcome := Returns tt; finalEnv := env1;
         trace := [EvTryLock (lockPath cfg w); EvLookPath (enginePath cfg);
                   EvPmset pmsetArgs] ++ t1
                  ++ engineTrace cfg w "backup" (tl (backupArgs cfg w)) env1
                  ++ pruneTrace cfg w env1
                  ++ metricsTrace cfg w
                  ++ [EvLog (completedEntry w); EvCancel; EvUnlock (lockPath cfg w)] |}.

(** ** Concrete runs *)

Module Scenario.

Definition cfg : Config :=
  {| BackupDir := "/Users/me/.restic_backup";
     LockFile := ".restic_backup_lock";
     LogFile := "restic_backup.log";
     Restic := {| Path := "/usr/local/bin/restic";
                  FilesFrom := "backup.txt";
                  ExcludeFile := "exclude.txt";
                  S3Storage := "STANDARD_IA" |};
     HostName := "localhost";
     SecurityService := "restic_backup";
     RequireAcPower := true;
     CleanupOldBackups := true |}.

Definition join (dir name : string) : string := dir +:+ "/" +:+ name.

(** The keychain answers every account with its name in upper case letters
    replaced by a fixed text; the account is the fifth argument. *)
Definition keychain (args : list string) : string * error :=
  match args !! 4 with
  | Some account => ("secret-of-" +:+ account +:+ String newline EmptyString, None)
  | None => (EmptyString, Some "exit status 44")
  end.

(** Lock free, engine found, on AC power, all secrets resolve, both engine
    commands exit zero, metrics accepted. *)
Definition allGood : World :=
  {| filepath_Join := join;
     flock_TryLock := fun _ => (true, None);
     exec_LookPath := fun _ => None;
     pmset_Output := ("Now drawing from 'AC Power'" +:+ String newline EmptyString, None);
     security_CombinedOutput := keychain;
     restic_Run := fun _ args _ =>
       match args with
       | "backup" :: _ =>
           ("snapshot 1a2b3c saved" +:+ String newline EmptyString, EmptyString, None)
       | _ => (EmptyString, EmptyString, None)
       end;
     aws_LoadDefaultConfig := None;
     aws_PutMetricData := None;
     time_Since := 42000000000 |}.

Definition withLock (r : bool * error) (w : World) : World :=
  {| filepath_Join := filepath_Join w;
     flock_TryLock := fun _ => r;
     exec_LookPath := exec_LookPath w;
     pmset_Output := pmset_Output w;
     security_CombinedOutput := security_CombinedOutput w;
     restic_Run := restic_Run w;
     aws_LoadDefaultConfig := aws_LoadDefaultConfig w;
     aws_PutMetricData := aws_PutMetricData w;
     time_Since := time_Since w |}.

Definition withLookPath (r : error) (w : World) : World :=
  {| filepath_Join := filepath_Join w;
     flock_TryLock := flock_TryLock w;
     exec_LookPath := fun _ => r;
     pmset_Output := pmset_Output w;
     security_CombinedOutput := security_CombinedOutput w;
     restic_Run := restic_Run w;
     aws_LoadDefaultConfig := aws_LoadDefaultConfig w;
     aws_PutMetricData := aws_PutMetricData w;
     time_Since := time_Since w |}.

Definition withPmset (r : string * error) (w : World) : World :=
  {| filepath_Join := filepath_Join w;
     flock_TryLock := flock_TryLock w;
     exec_LookPath := exec_LookPath w;
     pmset_Output := r;
     security_CombinedOutput := security_CombinedOutput w;
     restic_Run := restic_Run w;
     aws_LoadDefaultConfig := aws_LoadDefaultConfig w;
     aws_PutMetricData := aws_PutMetricData w;
     time_Since := time_Since w |}.

Definition withSecurity (f : list string -> string * error) (w : World) : World :=
  {| filepath_Join := filepath_Join w;
     flock_TryLock := flock_TryLock w;
     exec_LookPath := exec_LookPath w;
     pmset_Output := pmset_Output w;
     security_CombinedOutput := f;
     restic_Run := restic_Run w;
     aws_LoadDefaultConfig := aws_LoadDefaultConfig w;
     aws_PutMetricData := aws_PutMetricData w;
     time_Since := time_Since w |}.

Definition withRestic (f : list string -> string * string * error) (w : World) : World :=
  {| filepath_Join := filepath_Join w;
     flock_TryLock := flock_TryLock w;
     exec_LookPath := exec_LookPath w;
     pmset_Output := pmset_Output w;
     security_CombinedOutput := security_CombinedOutput w;
     restic_Run := fun _ args _ => f args;
     aws_LoadDefaultConfig := aws_LoadDefaultConfig w;
     aws_PutMetricData := aws_PutMetricData w;
     time_Since := time_Since w |}.

(** The environment the process starts with. *)
Definition env0 : gmap string string :=
  <["HOME" := "/Users/me"]> (<["PATH" := "/usr/bin:/bin"]> ∅).

(** Scenario B: the lock is held by another instance. *)
Definition lockBusy : World := withLock (false, None) allGood.

(** The lock file cannot be opened. *)
Definition lockError : World := withLock (false, Some "permission denied") allGood.

(** The engine executable is not on the search path. *)
Definition noEngine : World :=
  withLookPath (Some "executable file not found in $PATH") allGood.

(** Scenario C: the host runs on battery. *)
Definition onBattery : World :=
  withPmset ("Now drawing from 'Battery Power'" +:+ String newline EmptyString, None) allGood.

(** Scenario D: the fetch of the [repository] secret fails. *)
Definition repositoryTimeout : World :=
  withSecurity (fun args =>
                  match args !! 4 with
                  | Some "repository" => (EmptyString, Some "signal: killed")
                  | _ => keychain args
                  end) allGood.

(** The keychain holds an empty password: the command succeeds and prints
    an empty line. *)
Definition emptyPassword : World :=
  withSecurity (fun args =>
                  match args !! 4 with
                  | Some "password" => (String newline EmptyString, None)
                  | _ => keychain args
                  end) allGood.

(** Scenario E: the backup command exits 2 with a line on stderr. *)
Definition backupFails : World :=
  withRestic (fun args =>
                match args with
                | "backup" :: _ =>
                    ("scanning", "repository locked" +:+ String newline EmptyString,
                     Some "exit status 2")
                | _ => (EmptyString, EmptyString, None)
                end) allGood.

(** Scenario F: the backup succeeds and the forget command exits 1. *)
Definition forgetFails : World :=
  withRestic (fun args =>
                match args with
                | "backup" :: _ => ("snapshot 1a2b3c saved", EmptyString, None)
                | _ => (EmptyString, "prune failed", Some "exit status 1")
                end) allGood.

(** The backup exits zero and also writes a warning to stderr. *)
Definition warningOnSuccess : World :=
  withRestic (fun args =>
                match args with
                | "backup" :: _ =>
                    ("snapshot 1a2b3c saved", "warning: cache is stale", None)
                | _ => (EmptyString, EmptyString, None)
                end) allGood.

End Scenario.

(** ** Further observations *)

Definition isTryLock (ev : Event) : bool :=
  match ev with EvTryLock _ => true | _ => false end.

(** The keychain queries of a trace, in order. *)
Definition securityQueries (t : list Event) : list (list string) :=
  omap (fun ev => match ev with EvSecurity a => Some a | _ => None end) t.

(** The five keychain queries of [setupEnv], in the order of the source. *)
Definition allQueries (cfg : Config) : list (list string) :=
  map (fun row => securityArgs (SecurityService cfg) row.1) secretTable.

(** The configuration of the concrete runs with both switches off. *)
Definition cfgPlain : Config :=
  {| BackupDir := BackupDir Scenario.cfg;
     LockFile := LockFile Scenario.cfg;
     LogFile := LogFile Scenario.cfg;
     Restic := Restic Scenario.cfg;
     HostName := HostName Scenario.cfg;
     SecurityService := SecurityService Scenario.cfg;
     RequireAcPower := false;
     CleanupOldBackups := false |}.

(** Whether a string holds a newline character. *)
Fixpoint hasNewline (s : string) : bool :=
  match s with
  | EmptyString => false
  | String c r => Ascii.eqb c newline || hasNewline r
  end.

(** [strings.Join (pieces, "\n")]. *)
Fixpoint JoinLines (pieces : list string) : string :=
  match pieces with
  | [] => EmptyString
  | [p] => p
  | p :: rest => p +:+ String newline (JoinLines rest)
  end.

(** ** White space at the ends of a byte string *)

(** A sequence of white-space runes, as UTF-8 bytes. *)
Inductive SpaceRunes : list ascii -> Prop :=
| SpaceRunes_nil : SpaceRunes []
| SpaceRunes_ascii a l :
    asciiSpace a = true -> SpaceRunes l -> SpaceRunes (a :: l)
| SpaceRunes_two a b l :
    utf8Space2 a b = true -> SpaceRunes l -> SpaceRunes (a :: b :: l)
| SpaceRunes_three a b c l :
    utf8Space3 a b c = true -> SpaceRunes l -> SpaceRunes (a :: b :: c :: l).

(** The same sequence read from its last byte. *)
Inductive SpaceRunesRev : list ascii -> Prop :=
| SpaceRunesRev_nil : SpaceRunesRev []
| SpaceRunesRev_ascii a l :
    asciiSpace a = true -> SpaceRunesRev l -> SpaceRunesRev (a :: l)
| SpaceRunesRev_two a b l :
    utf8Space2 b a = true -> SpaceRunesRev l -> SpaceRunesRev (a :: b :: l)
| SpaceRunesRev_three a b c l :
    utf8Space3 c b a = true -> SpaceRunesRev l -> SpaceRunesRev (a :: b :: c :: l).

(** Whether the bytes begin with a white-space rune. *)
Definition startsWithSpace (l : list ascii) : bool :=
  match l with
  | a :: r1 =>
      asciiSpace a ||
      match r1 with
      | b :: r2 =>
          utf8Space2 a b ||
          match r2 with
          | c :: _ => utf8Space3 a b c
          | [] => false
          end
      | [] => false
      end
  | [] => false
  end.

(** Whether the bytes, given last byte first, end with a white-space rune. *)
Definition startsWithSpaceRev (l : list ascii) : bool :=
  match l with
  | a :: r1 =>
      asciiSpace a ||
      match r1 with
      | b :: r2 =>
          utf8Space2 b a ||
          match r2 with
          | c :: _ => utf8Space3 c b a
          | [] => false
          end
      | [] => false
      end
  | [] => false
  end.

Definition endsWithSpace (l : list ascii) : bool := startsWithSpaceRev (rev l).

(** A byte that is neither ASCII white space nor part of a multi-byte
    rune. *)
Definition plain (c : ascii) : bool :=
  negb (asciiSpace c) && (nat_of_ascii c <? 128).

(** Whether a string begins, respectively ends, with a plain byte. *)
Definition firstPlain (m : string) : bool :=
  match m with
  | EmptyString => false
  | String a _ => plain a
  end.

Fixpoint lastPlain (m : string) : bool :=
  match m with
  | EmptyString => false
  | String a EmptyString => plain a
  | String _ r => lastPlain r
  end.

(** ** Start-up ([init], [setupLogging]) *)

(** A value handed to [viper.SetDefault]. *)
Inductive Setting :=
| SString (s : string)
| SBool (b : bool).

(** The [lumberjack.Logger] given to [log.SetOutput]. *)
Record Logger := {
  Filename : string;
  MaxSize : Z;
  MaxBackups : Z;
  MaxAge : Z;
  LocalTime : bool;
}.

(** What the outside world answers while the program starts. *)
Record Startup := {
  (** [os.UserHomeDir] *)
  os_UserHomeDir : string * error;
  (** [filepath.Join], of any number of elements *)
  startup_Join : list string -> string;
  (** [viper.ReadInConfig], for a configuration name, type and search paths *)
  viper_ReadInConfig : string -> string -> list string -> error;
  (** [viper.Unmarshal] into [appConfig], over the registered defaults *)
  viper_Unmarshal : list (string * Setting) -> Config * error;
}.

Inductive InitEvent :=
| IvSetDefault (key : string) (value : Setting)
| IvReadInConfig (name type : string) (paths : list string)
| IvUnmarshal
| IvSetOutput (l : Logger)
| IvSetLevel (lvl : Level)
| IvLog (e : Entry).

(** The defaults [init] registers, in order. *)
Definition defaultSettings (s : Startup) (homeDir : string) : list (string * Setting) :=
  [("backup_directory", SString (startup_Join s [homeDir; ".restic_backup"]));
   ("lock_file", SString ".restic_backup_lock");
   ("log_file", SString "restic_backup.log");
   ("restic.executable_path", SString "/usr/local/bina/restic");
   ("restic.files_from", SString "backup.txt");
   ("restic.exclude_file", SString "exclude.txt");
   ("restic.s3_storage_class", SString "STANDARD_IA");
   ("host_name", SString "localhost");
   ("security_service", SString "restic_backup");
   ("require_ac_power", SBool true);
   ("cleanup_old_backups", SBool false)].

(** [setupLogging] *)
Definition setupLogging (s : Startup) (appConfig : Config) : list InitEvent :=
  [IvSetOutput {| Filename := startup_Join s [BackupDir appConfig; "logs"; LogFile appConfig];
                  MaxSize := 10;
                  MaxBackups := 3;
                  MaxAge := 28;
                  LocalTime := true |};
   IvSetLevel InfoLevel].

Definition initFatal (msg : string) : InitEvent :=
  IvLog {| level := FatalLevel; fields := []; message := msg |}.

(** [init]: the configuration it leaves in [appConfig], or the end of the
    process, with the trace of what it did. *)
Definition init (s : Startup) : Outcome Config * list InitEvent :=
  let '(homeDir, err) := os_UserHomeDir s in
  match err with
  | Some e => (OsExit 1, [initFatal ("Error getting user home directory:" +:+ e)])
  | None =>
      let defaults := defaultSettings s homeDir in
      let paths := [startup_Join s [homeDir; ".restic_backup"]] in
      let t0 := map (fun kv => IvSetDefault kv.1 kv.2) defaults
                ++ [IvReadInConfig "config" "yaml" paths] in
      match viper_ReadInConfig s "config" "yaml" paths with
      | Some e => (OsExit 1, t0 ++ [initFatal ("Error reading config file: " +:+ e)])
      | None =>
          let '(appConfig, err) := viper_Unmarshal s defaults in
          match err with
          | Some e =>
              (OsExit 1,
               t0 ++ [IvUnmarshal; initFatal ("Error unmarshaling config: " +:+ e)])
          | None => (Returns appConfig, t0 ++ [IvUnmarshal] ++ setupLogging s appConfig)
          end
      end
  end.

(** The whole process: the Go runtime runs [init] before [main], and [main]
    works with the [appConfig] that [init] left.  The result is the trace of
    [init] and, when [init] returned, the run of [main]. *)
Definition program (s : Startup) (w : World) (env0 : gmap string string)
    : list InitEvent * option Run :=
  match init s with
  | (Returns appConfig, t) => (t, Some (run appConfig w env0))
  | (_, t) => (t, None)
  end.

(** The exit status of the whole process. *)
Definition programExit (s : Startup) (w : World) (env0 : gmap string string) : Z :=
  match init s with
  | (Returns appConfig, _) => exitStatus (outcome (run appConfig w env0))
  | (o, _) => exitStatus o
  end.

Definition isSetOutput (ev : InitEvent) : bool :=
  match ev with IvSetOutput _ => true | _ => false end.

(** Path elements joined with a slash. *)
Fixpoint JoinSlash (parts : list string) : string :=
  match parts with
  | [] => EmptyString
  | [p] => p
  | p :: rest => p +:+ "/" +:+ JoinSlash rest
  end.

(** A start-up in which the home directory is known, the configuration file
    is read and unmarshalled into the configuration of the concrete runs. *)
Definition startupGood : Startup :=
  {| os_UserHomeDir := ("/Users/me", None);
     startup_Join := fun parts => JoinSlash parts;
     viper_ReadInConfig := fun _ _ _ => None;
     viper_Unmarshal := fun _ => (Scenario.cfg, None) |}.

(** The same start-up without a configuration file. *)
Definition startupNoFile : Startup :=
  {| os_UserHomeDir := os_UserHomeDir startupGood;
     startup_Join := startup_Join startupGood;
     viper_ReadInConfig := fun _ _ _ => Some "Config File Not Found";
     viper_Unmarshal := viper_Unmarshal startupGood |}.

Definition isCancel (ev : Event) : bool :=
  match ev with EvCancel => true | _ => false end.

(** The backup command fails; its stderr begins with a line that holds one
    space and goes on with two lines of text. *)
Definition backupFailsTwoLines : World :=
  Scenario.withRestic
    (fun args =>
       match args with
       | "backup" :: _ =>
           ("scanning",
            " " +:+ String newline "repository locked"
              +:+ String newline "unable to create lock" +:+ String newline EmptyString,
            Some "exit status 1")
       | _ => (EmptyString, EmptyString, None)
       end) Scenario.allGood.

(** The keychain holds a password with a NUL byte in it. *)
Definition nulPassword : World :=
  Scenario.withSecurity
    (fun args =>
       match args !! 4 with
       | Some "password" => ("ab" +:+ String nul "cd" +:+ String newline EmptyString, None)
       | _ => Scenario.keychain args
       end) Scenario.allGood.

(** ** Go strings, on examples *)

Example TrimSpace_ex1 :
  TrimSpace (String (ascii_of_nat 9) " repository locked  " +:+ String newline EmptyString)
  = "repository locked".
Proof. reflexivity. Qed.

Example SplitLines_ex1 :
  SplitLines ("a" +:+ String newline (String newline "b c")) = ["a"; EmptyString; "b c"].
Proof. reflexivity. Qed.

Example Contains_ex1 :
  Contains "Now drawing from 'AC Power'" "AC Power" = true
  /\ Contains "Now drawing from 'Battery Power'" "AC Power" = false.
Proof. split; reflexivity. Qed.

(** ** The process runner *)

Lemma logLines_cons cfg lvl op args lines env :
  logLines cfg lvl (op :: args) lines env
  = (Returns tt, env,
     map (fun line => EvLog (lineEntry cfg lvl op line))
         (List.filter (fun line => negb (String.eqb line EmptyString)) lines)).
Proof.
  induction lines as [|line rest IH]; [reflexivity|].
  cbn [logLines List.filter]. unfold bind at 1.
  destruct (String.eqb line EmptyString).
  - cbn [ret negb]. rewrite IH. reflexivity.
  - unfold bind at 1. cbn [index0 ret logEntry emit negb]. rewrite IH. reflexivity.
Qed.

Lemma logLines_nil cfg lvl lines env :
  logLines cfg lvl [] lines env
  = if existsb (fun line => negb (String.eqb line EmptyString)) lines
    then (Panics panicIndex0, env, [])
    else (Returns tt, env, []).
Proof.
  induction lines as [|line rest IH]; [reflexivity|].
  cbn [logLines existsb]. unfold bind at 1.
  destruct (String.eqb line EmptyString); cbn [ret negb orb].
  - rewrite IH. destruct (existsb _ rest); reflexivity.
  - reflexivity.
Qed.

(** [runResticCommand] with a non-empty argument list, in closed form. *)
Lemma runResticCommand_cons cfg w op args env :
  runResticCommand cfg w (op :: args) env
  = let '(stdout, stderr, err) := restic_Run w (Path (Restic cfg)) (op :: args) env in
    match err with
    | Some e =>
        (Returns (Some e), env,
         EvEngine (Path (Restic cfg)) (op :: args) env
           :: lineEvents cfg ErrorLevel op stderr ++ [EvLog (failedEntry cfg op e)])
    | None =>
        (Returns None, env,
         EvEngine (Path (Restic cfg)) (op :: args) env :: lineEvents cfg InfoLevel op stdout)
    end.
Proof.
  unfold runResticCommand, bind, os_Environ, emit.
  destruct (restic_Run w (Path (Restic cfg)) (op :: args) env) as [[stdout stderr] [e|]].
  - rewrite logLines_cons. reflexivity.
  - rewrite logLines_cons. cbn [ret]. rewrite app_nil_r. reflexivity.
Qed.

(** ** Traces *)

Lemma count_app p t1 t2 : count p (t1 ++ t2) = count p t1 + count p t2.
Proof. unfold count. rewrite List.filter_app, length_app. reflexivity. Qed.

Lemma count_cons p e t : count p (e :: t) = (if p e then 1 else 0) + count p t.
Proof. unfold count. cbn [List.filter]. destruct (p e); reflexivity. Qed.

Lemma count_nil p : count p [] = 0.
Proof. reflexivity. Qed.

Lemma count_zero_not_In p t e : count p t = 0 -> p e = true -> ~ In e t.
Proof.
  unfold count. intros Hc He Hin.
  assert (Hf : In e (List.filter p t)) by (apply filter_In; split; assumption).
  destruct (List.filter p t); [contradiction | discriminate].
Qed.

Lemma count_lineEvents p cfg lvl op buffer :
  (forall x, p (EvLog x) = false) -> count p (lineEvents cfg lvl op buffer) = 0.
Proof.
  intros Hp. unfold lineEvents.
  induction (nonEmptyLines buffer) as [|l ls IH]; [reflexivity|].
  cbn [map]. rewrite count_cons, Hp, IH. reflexivity.
Qed.

Lemma entries_app t1 t2 : entries (t1 ++ t2) = entries t1 ++ entries t2.
Proof. unfold entries. apply omap_app. Qed.

Lemma entries_lineEvents cfg lvl op buffer :
  entries (lineEvents cfg lvl op buffer) = map (lineEntry cfg lvl op) (nonEmptyLines buffer).
Proof.
  unfold lineEvents.
  induction (nonEmptyLines buffer) as [|l ls IH]; [reflexivity|].
  cbn [map]. change (entries (?e :: ?t)) with (entries [e] ++ entries t) at 1.
  rewrite IH. reflexivity.
Qed.

(** ** Credential setup *)

Lemma getSecurityData_eq w service account env :
  getSecurityData w service account env
  = match security_CombinedOutput w (securityArgs service account) with
    | (_, Some e) =>
        (OsExit 1, env, [EvSecurity (securityArgs service account); EvLog (fatalEntry service e)])
    | (out, None) =>
        (Returns (TrimSpace out), env, [EvSecurity (securityArgs service account)])
    end.
Proof.
  unfold getSecurityData, bind, emit. fold (securityArgs service account).
  destruct (security_CombinedOutput w (securityArgs service account)) as [out [e|]];
    reflexivity.
Qed.

(** One statement of [setupEnv] followed by the rest of the function. *)
Lemma envSet_lookup_ne key value env k :
  key <> k -> envSet key value env !! k = env !! k.
Proof.
  intros Hne. unfold envSet.
  destruct (setenvValid key value); [apply lookup_insert_ne; exact Hne | reflexivity].
Qed.

Lemma envSet_lookup_eq key value env :
  envSet key value env !! key
  = if setenvValid key value then Some value else env !! key.
Proof.
  unfold envSet. destruct (setenvValid key value); [apply lookup_insert_eq | reflexivity].
Qed.

Lemma setenv_step cfg w account var (k : M unit) env :
  ((v <- getSecurityData w (SecurityService cfg) account ;; os_Setenv var v) ;;; k) env
  = match security_CombinedOutput w (securityArgs (SecurityService cfg) account) with
    | (_, Some e) =>
        (OsExit 1, env,
         [EvSecurity (securityArgs (SecurityService cfg) account);
          EvLog (fatalEntry (SecurityService cfg) e)])
    | (out, None) =>
        let '(o, env', t) := k (envSet var (TrimSpace out) env) in
        (o, env',
         EvSecurity (securityArgs (SecurityService cfg) account)
           :: EvSetenv var (TrimSpace out) :: t)
    end.
Proof.
  unfold bind. rewrite getSecurityData_eq.
  destruct (security_CombinedOutput w _) as [out [e|]]; [reflexivity|].
  unfold os_Setenv.
  destruct (k _) as [[o env'] t]. reflexivity.
Qed.

Lemma setenvAll_cons cfg w account var rest env :
  setenvAll cfg w ((account, var) :: rest) env
  = match security_CombinedOutput w (securityArgs (SecurityService cfg) account) with
    | (_, Some e) =>
        (OsExit 1, env,
         [EvSecurity (securityArgs (SecurityService cfg) account);
          EvLog (fatalEntry (SecurityService cfg) e)])
    | (out, None) =>
        let '(o, env', t) := setenvAll cfg w rest (envSet var (TrimSpace out) env) in
        (o, env',
         EvSecurity (securityArgs (SecurityService cfg) account)
           :: EvSetenv var (TrimSpace out) :: t)
    end.
Proof. apply setenv_step. Qed.

Lemma setupEnv_setenvAll cfg w env :
  setupEnv cfg w env = setenvAll cfg w secretTable env.
Proof.
  unfold setupEnv, secretTable.
  do 5 (rewrite setenv_step, setenvAll_cons;
        destruct (security_CombinedOutput w _) as [? [?|]]; [reflexivity|]).
  reflexivity.
Qed.

Section SetenvAll.

Variable cfg : Config.
Variable w : World.

Let service := SecurityService cfg.

Ltac setenv_cases IH :=
  let out := fresh "out" in
  let e := fresh "e" in
  let Hsec := fresh "Hsec" in
  let o := fresh "o" in
  let env' := fresh "env'" in
  let t := fresh "t" in
  let Hrest := fresh "Hrest" in
  rewrite setenvAll_cons;
  destruct (security_CombinedOutput w (securityArgs (SecurityService cfg) _))
    as [out [e|]] eqn:Hsec;
  [ cbn [outcomeOf envOf traceOf fst snd]
  | match goal with
    | |- context [setenvAll cfg w ?rest ?env1] =>
        pose proof (IH env1) as IH;
        destruct (setenvAll cfg w rest env1) as [[o env'] t] eqn:Hrest;
        cbn [outcomeOf envOf traceOf fst snd] in IH |- *
    end ].

Lemma setenvAll_outcome tbl env :
  outcomeOf (setenvAll cfg w tbl env) = Returns tt
  \/ outcomeOf (setenvAll cfg w tbl env) = OsExit 1.
Proof.
  revert env. induction tbl as [|[account var] rest IH]; intros env.
  - left. reflexivity.
  - setenv_cases IH; [right; reflexivity | exact IH].
Qed.

(** [setupEnv] queries the keychain, sets variables and logs; nothing
    else. *)
Lemma setenvAll_count p tbl env :
  (forall a, p (EvSecurity a) = false) ->
  (forall k v, p (EvSetenv k v) = false) ->
  (forall x, p (EvLog x) = false) ->
  count p (traceOf (setenvAll cfg w tbl env)) = 0.
Proof.
  intros Hsec Hset Hlog. revert env.
  induction tbl as [|[account var] rest IH]; intros env.
  - reflexivity.
  - setenv_cases IH.
    + rewrite !count_cons, Hsec, Hlog. reflexivity.
    + rewrite !count_cons, Hsec, Hset. exact IH.
Qed.

(** Variables outside the table keep their value, whatever the outcome. *)
Lemma setenvAll_frame tbl env k :
  ~ In k (map snd tbl) ->
  envOf (setenvAll cfg w tbl env) !! k = env !! k.
Proof.
  revert env. induction tbl as [|[account var] rest IH]; intros env Hk.
  - reflexivity.
  - cbn [map snd In] in Hk.
    assert (Hne : var <> k) by tauto.
    assert (Hrest' : ~ In k (map snd rest)) by tauto.
    specialize (fun env => IH env Hrest').
    setenv_cases IH; [reflexivity|].
    rewrite IH. apply envSet_lookup_ne. exact Hne.
Qed.

(** The variables that have been set are variables of the table. *)
Lemma setenvAll_keys tbl env key value :
  In (EvSetenv key value) (traceOf (setenvAll cfg w tbl env)) -> In key (map snd tbl).
Proof.
  revert env. induction tbl as [|[account var] rest IH]; intros env.
  - intros [].
  - setenv_cases IH.
    + intros [H|[H|[]]]; discriminate.
    + cbn [map snd In].
      intros [H|[H|H]]; [discriminate | left; congruence | right; exact (IH H)].
Qed.

(** A keychain query that fails is the last thing the process does. *)
Lemma setenvAll_fatal tbl env args out e :
  In (EvSecurity args) (traceOf (setenvAll cfg w tbl env)) ->
  security_CombinedOutput w args = (out, Some e) ->
  outcomeOf (setenvAll cfg w tbl env) = OsExit 1
  /\ exists t0,
      traceOf (setenvAll cfg w tbl env)
      = t0 ++ [EvSecurity args; EvLog (fatalEntry service e)].
Proof.
  revert env. induction tbl as [|[account var] rest IH]; intros env.
  - intros [].
  - setenv_cases IH.
    + intros [H|[H|[]]] Herr; [|discriminate].
      injection H as <-. rewrite Hsec in Herr. injection Herr as _ <-.
      split; [reflexivity|]. exists []. reflexivity.
    + intros [H|[H|H]] Herr; [|discriminate|].
      * injection H as <-. rewrite Hsec in Herr. discriminate.
      * destruct (IH H Herr) as [Ho [t0 Ht]]. split; [exact Ho|].
        exists (EvSecurity (securityArgs (SecurityService cfg) account)
                  :: EvSetenv var (TrimSpace out0) :: t0).
        rewrite Ht. reflexivity.
Qed.

(** When every query succeeds, [os.Setenv] was called for the variables of
    the table, in order, and each variable holds the trimmed output of its
    query when [os.Setenv] accepts it, and what it held before otherwise. *)
Lemma setenvAll_success tbl env :
  List.NoDup (map snd tbl) ->
  outcomeOf (setenvAll cfg w tbl env) = Returns tt ->
  Forall (fun '(account, var) =>
            exists out,
              security_CombinedOutput w (securityArgs service account) = (out, None)
              /\ envOf (setenvAll cfg w tbl env) !! var
                 = if setenvValid var (TrimSpace out) then Some (TrimSpace out)
                   else env !! var) tbl
  /\ omap (fun ev => match ev with EvSetenv k _ => Some k | _ => None end)
          (traceOf (setenvAll cfg w tbl env))
     = map snd tbl.
Proof.
  revert env. induction tbl as [|[account var] rest IH]; intros env Hnd Ho.
  - split; [constructor | reflexivity].
  - cbn [map snd] in Hnd. apply List.NoDup_cons_iff in Hnd as [Hfresh Hnd].
    pose proof (setenvAll_frame rest (envSet var (TrimSpace
      (security_CombinedOutput w (securityArgs (SecurityService cfg) account)).1) env)
      var Hfresh) as Hframe.
    specialize (fun env => IH env Hnd).
    revert Ho Hframe. setenv_cases IH; intros Ho Hframe; [discriminate|].
    destruct (IH Ho) as [Hall Hkeys]. split.
    + constructor.
      * exists out. split; [exact Hsec|].
        rewrite Hrest in Hframe. cbn [envOf fst snd] in Hframe.
        rewrite Hframe. apply envSet_lookup_eq.
      * rewrite List.Forall_forall in Hall |- *. intros [account' var'] Hin.
        destruct (Hall _ Hin) as [out' [Hsec' Hval]].
        exists out'. split; [exact Hsec'|]. rewrite Hval.
        rewrite envSet_lookup_ne; [reflexivity|].
        intros ->. apply Hfresh. apply in_map_iff. exists (account', var').
        split; [reflexivity | exact Hin].
    + cbn [omap map snd]. unfold omap in Hkeys. cbn. f_equal. exact Hkeys.
Qed.

End SetenvAll.

(** ** The paths through [main] *)

Lemma runResticCommand_trace cfg w op args env :
  runResticCommand cfg w (op :: args) env
  = (Returns (restic_Run w (enginePath cfg) (op :: args) env).2, env,
     engineTrace cfg w op args env).
Proof.
  rewrite runResticCommand_cons. unfold engineTrace, enginePath.
  destruct (restic_Run w (Path (Restic cfg)) (op :: args) env) as [[stdout stderr] [e|]];
    reflexivity.
Qed.

Lemma report_trace cfg w env :
  bind (sendAwsMetrics cfg w (time_Since w))
       (fun err =>
          bind (match err with
                | Some e => log_Error [("err", VErr e)] "cannot send backup metrics to CloudWatch"
                | None => ret tt
                end)
               (fun _ => log_Info [("duration", VDuration (time_Since w))]
                                  "Backup completed successfully")) env
  = (Returns tt, env, metricsTrace cfg w ++ [EvLog (completedEntry w)]).
Proof.
  unfold sendAwsMetrics, metricsTrace, bind, emit.
  destruct (aws_LoadDefaultConfig w) as [e|]; [reflexivity|].
  destruct (aws_PutMetricData w) as [e|]; reflexivity.
Qed.

Lemma prune_trace cfg w env :
  (if CleanupOldBackups cfg then
     bind (runResticCommand cfg w forgetArgs)
          (fun err =>
             match err with
             | Some _ =>
                 log_Error [("cmd", VStr (Path (Restic cfg))); ("command", VStr "forget")]
                           "Forget failed"
             | None => ret tt
             end)
   else ret tt) env
  = (Returns tt, env, pruneTrace cfg w env).
Proof.
  unfold pruneTrace. destruct (CleanupOldBackups cfg); [|reflexivity].
  unfold bind. change forgetArgs with ("forget" :: tl forgetArgs) at 1.
  rewrite runResticCommand_trace.
  change ("forget" :: tl forgetArgs) with forgetArgs.
  destruct (restic_Run w (enginePath cfg) forgetArgs env) as [[so se] [e|]];
    cbn [snd]; [reflexivity|].
  cbn [ret]. reflexivity.
Qed.

(** Every run of [main] follows one of the eight paths. *)
Lemma main_path cfg w env0 : MainPath cfg w env0 (run cfg w env0).
Proof.
  unfold run, main. fold (lockPath cfg w).
  unfold bind at 1. cbn [emit].
  destruct (flock_TryLock w (lockPath cfg w)) as [locked [e|]] eqn:Hlock.
  { cbn. eapply PathLockError. exact Hlock. }
  destruct locked; cbn [negb]; [|cbn; apply PathLockBusy; exact Hlock].
  unfold defer, mainBody. fold (enginePath cfg).
  unfold bind at 1. cbn [emit].
  destruct (exec_LookPath w (enginePath cfg)) as [e|] eqn:Hlook.
  { cbn. eapply PathNoEngine; eassumption. }
  unfold bind at 1. unfold isOnPower at 1. unfold bind at 1. cbn [emit].
  fold pmsetArgs.
  destruct (pmset_Output w) as [output [e|]] eqn:Hpm.
  { cbn. eapply PathPowerError; eassumption. }
  cbn [ret].
  destruct (RequireAcPower cfg && negb (Contains (TrimSpace output) "AC Power")) eqn:Hreq.
  { cbn. apply andb_prop in Hreq as [Hr Hc]. apply negb_true_iff in Hc.
    eapply PathOnBattery; eassumption. }
  unfold bind at 1.
  pose proof (setenvAll_outcome cfg w secretTable env0) as Hout.
  rewrite <- setupEnv_setenvAll in Hout.
  destruct (setupEnv cfg w env0) as [[o1 env1] t1] eqn:Hsetup.
  cbn [outcomeOf fst] in Hout.
  destruct Hout as [-> | ->]; [|cbn [app]; eapply PathSecretFatal; eassumption].
  unfold bind at 1.
  change (backupArgs cfg w) with ("backup" :: tl (backupArgs cfg w)) at 1.
  rewrite runResticCommand_trace.
  change ("backup" :: tl (backupArgs cfg w)) with (backupArgs cfg w).
  destruct (restic_Run w (enginePath cfg) (backupArgs cfg w) env1)
    as [[stdout stderr] [e|]] eqn:Hrun; cbn [snd].
  - cbn [bind log_Error logEntry emit os_Exit app].
    eapply PathBackupFailed; eassumption.
  - unfold bind at 1. rewrite prune_trace.
    cbv zeta. rewrite report_trace.
    cbn [app]. rewrite <- !app_assoc. cbn [app].
    eapply PathCompleted; eassumption.
Qed.

(** ** Counting events along the paths *)

Lemma count_engineTrace p cfg w op args env :
  (forall x, p (EvLog x) = false) ->
  count p (engineTrace cfg w op args env)
  = if p (EvEngine (enginePath cfg) (op :: args) env) then 1 else 0.
Proof.
  intros Hlog. unfold engineTrace.
  destruct (restic_Run w (enginePath cfg) (op :: args) env) as [[stdout stderr] [e|]];
    rewrite count_cons; [rewrite count_app, count_cons, Hlog|];
    rewrite count_lineEvents by exact Hlog; cbn [count_nil]; rewrite ?count_nil; lia.
Qed.

Lemma count_pruneTrace p cfg w env :
  (forall x, p (EvLog x) = false) ->
  (forall path args env', p (EvEngine path args env') = false) ->
  count p (pruneTrace cfg w env) = 0.
Proof.
  intros Hlog Heng. unfold pruneTrace.
  destruct (CleanupOldBackups cfg); [|reflexivity].
  rewrite count_app, count_engineTrace, Heng by exact Hlog.
  destruct (restic_Run w (enginePath cfg) forgetArgs env) as [[stdout stderr] [e|]];
    [rewrite count_cons, Hlog|]; reflexivity.
Qed.

Lemma count_metricsTrace p cfg w :
  (forall x, p (EvLog x) = false) ->
  p EvLoadAwsConfig = false ->
  (forall host d, p (EvPutMetricData host d) = false) ->
  count p (metricsTrace cfg w) = 0.
Proof.
  intros Hlog Hload Hput. unfold metricsTrace.
  destruct (aws_LoadDefaultConfig w) as [e|]; [|destruct (aws_PutMetricData w) as [e|]];
    rewrite ?count_cons, ?Hlog, ?Hload, ?Hput; reflexivity.
Qed.

Lemma count_setupEnv p cfg w env :
  (forall a, p (EvSecurity a) = false) ->
  (forall k v, p (EvSetenv k v) = false) ->
  (forall x, p (EvLog x) = false) ->
  count p (traceOf (setupEnv cfg w env)) = 0.
Proof. rewrite setupEnv_setenvAll. apply setenvAll_count. Qed.

Lemma In_lineEvents ev cfg lvl op buffer :
  In ev (lineEvents cfg lvl op buffer) ->
  exists line, In line (nonEmptyLines buffer) /\ ev = EvLog (lineEntry cfg lvl op line).
Proof.
  unfold lineEvents. rewrite in_map_iff. intros [line [Heq Hin]].
  exists line. split; [exact Hin | symmetry; exact Heq].
Qed.

(** The engine invocations of the retention step carry the [forget]
    arguments and the environment of the step. *)
Lemma In_engineTrace path args' env' cfg w op args env :
  In (EvEngine path args' env') (engineTrace cfg w op args env) ->
  path = enginePath cfg /\ args' = op :: args /\ env' = env.
Proof.
  unfold engineTrace.
  destruct (restic_Run w (enginePath cfg) (op :: args) env) as [[stdout stderr] [e|]];
    intros [H|H]; try (injection H as <- <- <-; tauto).
  - apply in_app_iff in H as [H|[H|[]]]; [|discriminate].
    apply In_lineEvents in H as [line [_ H]]. discriminate.
  - apply In_lineEvents in H as [line [_ H]]. discriminate.
Qed.

Lemma In_pruneTrace path args env' cfg w env :
  In (EvEngine path args env') (pruneTrace cfg w env) ->
  CleanupOldBackups cfg = true /\ path = enginePath cfg /\ args = forgetArgs /\ env' = env.
Proof.
  unfold pruneTrace. destruct (CleanupOldBackups cfg); [|intros []].
  intros H. apply in_app_iff in H as [H|H].
  - apply In_engineTrace in H. tauto.
  - destruct (restic_Run w (enginePath cfg) forgetArgs env) as [[stdout stderr] [e|]];
      [destruct H as [H|[]]; discriminate | destruct H].
Qed.

Lemma backupArgs_forgetArgs cfg w : backupArgs cfg w <> forgetArgs.
Proof. discriminate. Qed.

(** The lock is released once when [main] returns and not at all when the
    process is ended by [os.Exit]. *)
Lemma unlock_count cfg w env0 :
  flock_TryLock w (lockPath cfg w) = (true, None) ->
  count isUnlock (trace (run cfg w env0))
  = match outcome (run cfg w env0) with
    | OsExit _ => 0
    | _ => 1
    end.
Proof.
  intros Hlock.
  destruct (main_path cfg w env0)
    as [locked e Hl|Hl|e Hl Hlook|output e Hl Hlook Hpm|output Hl Hlook Hpm Hreq Hc
       |output env1 t1 Hl Hlook Hpm Hreq Hsetup
       |output env1 t1 stdout stderr e Hl Hlook Hpm Hreq Hsetup Hrun
       |output env1 t1 stdout stderr Hl Hlook Hpm Hreq Hsetup Hrun];
    cbn [trace outcome]; try congruence; try reflexivity.
  - rewrite count_app.
    pose proof (count_setupEnv isUnlock cfg w env0) as Hc.
    rewrite Hsetup in Hc. cbn [traceOf snd] in Hc. rewrite Hc by reflexivity.
    reflexivity.
  - rewrite !count_app.
    pose proof (count_setupEnv isUnlock cfg w env0) as Hc.
    rewrite Hsetup in Hc. cbn [traceOf snd] in Hc. rewrite Hc by reflexivity.
    rewrite count_engineTrace by reflexivity. reflexivity.
  - rewrite !count_app.
    pose proof (count_setupEnv isUnlock cfg w env0) as Hc.
    rewrite Hsetup in Hc. cbn [traceOf snd] in Hc. rewrite Hc by reflexivity.
    rewrite count_engineTrace, count_pruneTrace, count_metricsTrace by reflexivity.
    reflexivity.
Qed.

(** Case analysis on the path of a run; hypotheses about the run must be in
    the goal. *)
Ltac by_path cfg w env0 :=
  let locked := fresh "locked" in
  let e := fresh "e" in
  let output := fresh "output" in
  let env1 := fresh "env1" in
  let t1 := fresh "t1" in
  let stdout := fresh "stdout" in
  let stderr := fresh "stderr" in
  let Hl := fresh "Hl" in
  let Hlook := fresh "Hlook" in
  let Hpm := fresh "Hpm" in
  let Hreq := fresh "Hreq" in
  let Hc := fresh "Hc" in
  let Hsetup := fresh "Hsetup" in
  let Hrun := fresh "Hrun" in
  destruct (main_path cfg w env0)
    as [locked e Hl|Hl|e Hl Hlook|output e Hl Hlook Hpm|output Hl Hlook Hpm Hreq Hc
       |output env1 t1 Hl Hlook Hpm Hreq Hsetup
       |output env1 t1 stdout stderr e Hl Hlook Hpm Hreq Hsetup Hrun
       |output env1 t1 stdout stderr Hl Hlook Hpm Hreq Hsetup Hrun];
  cbn [trace outcome finalEnv].

(** ** The claims *)

(** C4. When the lock is held by another instance ([TryLock] answers "not
    locked" without an error), the run consists of the single lock attempt
    and one warning, the environment is untouched, [main] returns and the
    exit status is 0: the engine is not invoked, no secret is fetched and no
    metrics are pushed.  When [TryLock] answers with an error, the run is
    the lock attempt and one error entry, and the exit status is 1. *)
Theorem C4_lock_busy_or_error (cfg : Config) (w : World) (env0 : gmap string string) :
  (flock_TryLock w (lockPath cfg w) = (false, None) ->
   run cfg w env0
   = {| outcome := Returns tt; finalEnv := env0;
        trace := [EvTryLock (lockPath cfg w); EvLog busyEntry] |}
   /\ level busyEntry = WarnLevel
   /\ exitStatus (outcome (run cfg w env0)) = 0%Z
   /\ count isEngine (trace (run cfg w env0)) = 0
   /\ count isSecurity (trace (run cfg w env0)) = 0
   /\ count isMetrics (trace (run cfg w env0)) = 0)
  /\ (forall locked e,
        flock_TryLock w (lockPath cfg w) = (locked, Some e) ->
        run cfg w env0
        = {| outcome := OsExit 1; finalEnv := env0;
             trace := [EvTryLock (lockPath cfg w); EvLog (lockErrorEntry e)] |}
        /\ level (lockErrorEntry e) = ErrorLevel
        /\ exitStatus (outcome (run cfg w env0)) = 1%Z).
Proof.
  split.
  - intros Hbusy.
    assert (Hrun : run cfg w env0
                   = {| outcome := Returns tt; finalEnv := env0;
                        trace := [EvTryLock (lockPath cfg w); EvLog busyEntry] |}).
    { by_path cfg w env0; congruence. }
    rewrite Hrun. repeat split.
  - intros locked e Herr.
    assert (Hrun : run cfg w env0
                   = {| outcome := OsExit 1; finalEnv := env0;
                        trace := [EvTryLock (lockPath cfg w); EvLog (lockErrorEntry e)] |}).
    { by_path cfg w env0; congruence. }
    rewrite Hrun. repeat split.
Qed.

Lemma C4_lock_busy_or_error_witness :
  trace (run Scenario.cfg Scenario.lockBusy Scenario.env0)
  = [EvTryLock "/Users/me/.restic_backup/.restic_backup_lock"; EvLog busyEntry]
  /\ exitStatus (outcome (run Scenario.cfg Scenario.lockError Scenario.env0)) = 1%Z.
Proof.
  split.
  - destruct (C4_lock_busy_or_error Scenario.cfg Scenario.lockBusy Scenario.env0) as [H _].
    destruct (H eq_refl) as [Hrun _]. rewrite Hrun. reflexivity.
  - destruct (C4_lock_busy_or_error Scenario.cfg Scenario.lockError Scenario.env0) as [_ H].
    destruct (H false "permission denied" eq_refl) as [_ [_ Hexit]]. exact Hexit.
Defined.

(** C3 (as the code has it).  When the engine executable cannot be resolved,
    the run logs one error entry and [main] returns: nothing else happens
    (no keychain query, no engine invocation, no metrics), the deferred calls
    release the lock, and the exit status is 0. *)
Theorem C3_missing_engine_returns (cfg : Config) (w : World) (env0 : gmap string string)
    (e : string) :
  In (EvLookPath (enginePath cfg)) (trace (run cfg w env0)) ->
  exec_LookPath w (enginePath cfg) = Some e ->
  run cfg w env0
  = {| outcome := Returns tt; finalEnv := env0;
       trace := [EvTryLock (lockPath cfg w); EvLookPath (enginePath cfg);
                 EvLog (noEngineEntry cfg); EvCancel; EvUnlock (lockPath cfg w)] |}
  /\ level (noEngineEntry cfg) = ErrorLevel
  /\ count isEngine (trace (run cfg w env0)) = 0
  /\ exitStatus (outcome (run cfg w env0)) = 0%Z.
Proof.
  intros Hin Hlook.
  assert (Hrun : run cfg w env0
                 = {| outcome := Returns tt; finalEnv := env0;
                      trace := [EvTryLock (lockPath cfg w); EvLookPath (enginePath cfg);
                                EvLog (noEngineEntry cfg); EvCancel;
                                EvUnlock (lockPath cfg w)] |}).
  { revert Hin. by_path cfg w env0; intros Hin; try congruence.
    - destruct Hin as [H|[H|[]]]; discriminate.
    - destruct Hin as [H|[H|[]]]; discriminate. }
  rewrite Hrun. repeat split.
Qed.

Lemma C3_missing_engine_returns_witness :
  exitStatus (outcome (run Scenario.cfg Scenario.noEngine Scenario.env0)) = 0%Z.
Proof.
  apply (C3_missing_engine_returns Scenario.cfg Scenario.noEngine Scenario.env0
           "executable file not found in $PATH").
  - vm_compute. right. left. reflexivity.
  - reflexivity.
Defined.

(** C3, as claimed, fails: with the engine missing from the search path the
    exit status is 0. *)
Lemma C3_counterexample :
  exec_LookPath Scenario.noEngine (enginePath Scenario.cfg)
  = Some "executable file not found in $PATH"
  /\ count isEngine (trace (run Scenario.cfg Scenario.noEngine Scenario.env0)) = 0
  /\ ~ (exitStatus (outcome (run Scenario.cfg Scenario.noEngine Scenario.env0)) <> 0%Z).
Proof.
  split; [reflexivity|]. split; [reflexivity|].
  intros H. apply H. reflexivity.
Qed.

(** C5. When [require_ac_power] is set and the power check of the run
    answers without the "AC Power" marker, the run ends with one warning
    entry, the engine is not invoked, no metrics are pushed, [main] returns
    and the exit status is 0. *)
Theorem C5_battery_skips_backup (cfg : Config) (w : World) (env0 : gmap string string)
    (output : string) :
  RequireAcPower cfg = true ->
  In (EvPmset pmsetArgs) (trace (run cfg w env0)) ->
  pmset_Output w = (output, None) ->
  Contains (TrimSpace output) "AC Power" = false ->
  count isEngine (trace (run cfg w env0)) = 0
  /\ count isMetrics (trace (run cfg w env0)) = 0
  /\ (exists t0,
        trace (run cfg w env0)
        = t0 ++ [EvLog onBatteryEntry; EvCancel; EvUnlock (lockPath cfg w)]
        /\ entries t0 = [])
  /\ level onBatteryEntry = WarnLevel
  /\ outcome (run cfg w env0) = Returns tt
  /\ exitStatus (outcome (run cfg w env0)) = 0%Z.
Proof.
  intros Hreq Hin Hpm Hc.
  assert (Hrun : run cfg w env0
                 = {| outcome := Returns tt; finalEnv := env0;
                      trace := [EvTryLock (lockPath cfg w); EvLookPath (enginePath cfg);
                                EvPmset pmsetArgs; EvLog onBatteryEntry;
                                EvCancel; EvUnlock (lockPath cfg w)] |}).
  { revert Hin. by_path cfg w env0; intros Hin; try congruence;
      try (rewrite Hreq in *; assert (output0 = output) by congruence; subst output0;
           rewrite Hc in *; discriminate).
    - destruct Hin as [H|[H|[]]]; discriminate.
    - destruct Hin as [H|[H|[]]]; discriminate.
    - destruct Hin as [H|[H|[H|[H|[H|[]]]]]]; discriminate. }
  rewrite Hrun. cbn [trace outcome]. repeat split.
  exists [EvTryLock (lockPath cfg w); EvLookPath (enginePath cfg); EvPmset pmsetArgs].
  split; reflexivity.
Qed.

Lemma C5_battery_skips_backup_witness :
  count isEngine (trace (run Scenario.cfg Scenario.onBattery Scenario.env0)) = 0
  /\ exitStatus (outcome (run Scenario.cfg Scenario.onBattery Scenario.env0)) = 0%Z.
Proof.
  destruct (C5_battery_skips_backup Scenario.cfg Scenario.onBattery Scenario.env0
              ("Now drawing from 'Battery Power'" +:+ String newline EmptyString))
    as [Heng [_ [_ [_ [_ Hexit]]]]].
  - reflexivity.
  - vm_compute. right. right. left. reflexivity.
  - reflexivity.
  - reflexivity.
  - split; assumption.
Defined.

Lemma engine_not_in_setup cfg w env0 o env1 t1 path args env :
  setupEnv cfg w env0 = (o, env1, t1) -> ~ In (EvEngine path args env) t1.
Proof.
  intros Hsetup. apply (count_zero_not_In isEngine); [|reflexivity].
  pose proof (count_setupEnv isEngine cfg w env0) as Hc.
  rewrite Hsetup in Hc. apply Hc; reflexivity.
Qed.

Lemma engine_not_in_metrics cfg w path args env :
  ~ In (EvEngine path args env) (metricsTrace cfg w).
Proof.
  apply (count_zero_not_In isEngine); [|reflexivity].
  apply count_metricsTrace; reflexivity.
Qed.

Lemma count_setup_trace p cfg w env0 o env1 t1 :
  setupEnv cfg w env0 = (o, env1, t1) ->
  (forall a, p (EvSecurity a) = false) ->
  (forall k v, p (EvSetenv k v) = false) ->
  (forall x, p (EvLog x) = false) ->
  count p t1 = 0.
Proof.
  intros Hsetup. pose proof (count_setupEnv p cfg w env0) as Hc.
  rewrite Hsetup in Hc. exact Hc.
Qed.

(** Splits a hypothesis [In ev t] along the appends and the explicit
    elements of [t]. *)
Ltac split_in H :=
  cbn [app In] in H; rewrite ?in_app_iff in H; cbn [In] in H;
  repeat match goal with
         | H' : _ \/ _ |- _ => destruct H' as [H'|H']
         | H' : False |- _ => destruct H'
         end.

Lemma SplitLines_nonempty s : SplitLines s <> [].
Proof.
  destruct s as [|c r]; [discriminate|]. cbn [SplitLines].
  destruct (Ascii.eqb c newline); [discriminate|].
  destruct (SplitLines r); discriminate.
Qed.

Lemma SplitLines_no_newline s : Forall (fun piece => hasNewline piece = false) (SplitLines s).
Proof.
  induction s as [|c r IH]; [repeat constructor|].
  cbn [SplitLines]. destruct (Ascii.eqb c newline) eqn:Hc.
  - constructor; [reflexivity | exact IH].
  - destruct (SplitLines r) as [|h t]; [repeat constructor; cbn; rewrite Hc; reflexivity|].
    inversion IH as [|? ? Hh Ht]; subst. constructor; [|exact Ht].
    cbn [hasNewline]. rewrite Hc, Hh. reflexivity.
Qed.

Lemma JoinLines_SplitLines s : JoinLines (SplitLines s) = s.
Proof.
  induction s as [|c r IH]; [reflexivity|].
  pose proof (SplitLines_nonempty r) as Hne.
  cbn [SplitLines]. destruct (Ascii.eqb c newline) eqn:Hc.
  - apply Ascii.eqb_eq in Hc. subst c.
    destruct (SplitLines r) as [|h t]; [contradiction|].
    change (JoinLines (EmptyString :: h :: t))
      with (EmptyString +:+ String newline (JoinLines (h :: t))).
    rewrite IH. reflexivity.
  - destruct (SplitLines r) as [|h [|h' t]]; [contradiction| |].
    + cbn [JoinLines] in *. rewrite IH. reflexivity.
    + change (JoinLines (String c h :: h' :: t))
        with (String c (h +:+ String newline (JoinLines (h' :: t)))).
      change (JoinLines (h :: h' :: t))
        with (h +:+ String newline (JoinLines (h' :: t))) in IH.
      rewrite IH. reflexivity.
Qed.

Lemma nonEmptyLines_single_line buffer :
  Forall (fun line => line <> EmptyString /\ hasNewline line = false) (nonEmptyLines buffer).
Proof.
  apply List.Forall_forall. intros line Hin.
  unfold nonEmptyLines in Hin. apply filter_In in Hin as [Hpiece Hne]. split.
  - intros ->. discriminate Hne.
  - pose proof (SplitLines_no_newline (TrimSpace buffer)) as Hall.
    rewrite List.Forall_forall in Hall. exact (Hall line Hpiece).
Qed.

(** C6 (as the code has it).  When the backup command of a run ends with an
    error, the trace ends with: the invocation, one error-level entry per
    non-empty line of the trimmed stderr (in order), the entry carrying the
    error, and the entry "Backup failed".  The lines are the pieces between
    the newlines of the trimmed stderr that are not empty: white space at
    the two ends of the buffer is dropped, whole lines of it included.  The
    process exits with status 1; the backup invocation is the only engine
    invocation (no forget) and no metrics are pushed. *)
Theorem C6_backup_failure (cfg : Config) (w : World) (env0 env : gmap string string)
    (stdout stderr e : string) :
  In (EvEngine (enginePath cfg) (backupArgs cfg w) env) (trace (run cfg w env0)) ->
  restic_Run w (enginePath cfg) (backupArgs cfg w) env = (stdout, stderr, Some e) ->
  exitStatus (outcome (run cfg w env0)) = 1%Z
  /\ (exists t0,
        trace (run cfg w env0)
        = t0 ++ EvEngine (enginePath cfg) (backupArgs cfg w) env
             :: map (fun line => EvLog (lineEntry cfg ErrorLevel "backup" line))
                    (nonEmptyLines stderr)
             ++ [EvLog (failedEntry cfg "backup" e);
                 EvLog (commandFailedEntry cfg "backup" "Backup failed")])
  /\ (forall line,
        In line (nonEmptyLines stderr) ->
        In (EvLog (lineEntry cfg ErrorLevel "backup" line)) (trace (run cfg w env0)))
  /\ count isEngine (trace (run cfg w env0)) = 1
  /\ count isMetrics (trace (run cfg w env0)) = 0
  /\ JoinLines (SplitLines (TrimSpace stderr)) = TrimSpace stderr
  /\ nonEmptyLines stderr
     = List.filter (fun line => negb (String.eqb line EmptyString))
                   (SplitLines (TrimSpace stderr))
  /\ Forall (fun line => line <> EmptyString /\ hasNewline line = false)
            (nonEmptyLines stderr).
Proof.
  intros Hin Hfail. revert Hin.
  by_path cfg w env0; intros Hin; try (split_in Hin; discriminate).
  - (* a keychain query failed: the engine was not invoked *)
    split_in Hin; try discriminate.
    exfalso. exact (engine_not_in_setup _ _ _ _ _ _ _ _ _ Hsetup Hin).
  - (* the backup failed *)
    split_in Hin; try discriminate.
    { exfalso. exact (engine_not_in_setup _ _ _ _ _ _ _ _ _ Hsetup Hin). }
    apply In_engineTrace in Hin as [_ [_ ->]].
    change ("backup" :: tl (backupArgs cfg w)) with (backupArgs cfg w) in *.
    rewrite Hfail in Hrun. injection Hrun as <- <- <-.
    assert (Htrace : engineTrace cfg w "backup" (tl (backupArgs cfg w)) env1
                     = EvEngine (enginePath cfg) (backupArgs cfg w) env1
                         :: lineEvents cfg ErrorLevel "backup" stderr
                         ++ [EvLog (failedEntry cfg "backup" e)]).
    { unfold engineTrace.
      change ("backup" :: tl (backupArgs cfg w)) with (backupArgs cfg w).
      rewrite Hfail. reflexivity. }
    split; [reflexivity|]. split; [|split; [|split; [|split; [|split; [|split]]]]].
    + exists ([EvTryLock (lockPath cfg w); EvLookPath (enginePath cfg); EvPmset pmsetArgs]
              ++ t1).
      rewrite Htrace. unfold lineEvents. cbn [app]. rewrite <- !app_assoc. reflexivity.
    + intros line Hline. rewrite Htrace.
      rewrite !in_app_iff. right. right. left. right.
      rewrite in_app_iff. left. unfold lineEvents. apply in_map_iff.
      exists line. split; [reflexivity | exact Hline].
    + rewrite !count_app, (count_setup_trace _ _ _ _ _ _ _ Hsetup) by reflexivity.
      rewrite count_engineTrace by reflexivity. reflexivity.
    + rewrite !count_app, (count_setup_trace _ _ _ _ _ _ _ Hsetup) by reflexivity.
      rewrite count_engineTrace by reflexivity. reflexivity.
    + apply JoinLines_SplitLines.
    + reflexivity.
    + apply nonEmptyLines_single_line.
  - (* the backup succeeded: the hypothesis is contradicted *)
    exfalso. split_in Hin; try discriminate.
    + exact (engine_not_in_setup _ _ _ _ _ _ _ _ _ Hsetup Hin).
    + apply In_engineTrace in Hin as [_ [_ ->]]. congruence.
    + apply In_pruneTrace in Hin as [_ [_ [Hargs _]]].
      exact (backupArgs_forgetArgs cfg w Hargs).
    + exact (engine_not_in_metrics _ _ _ _ _ Hin).
Qed.

(** Finds an element in an explicit list, by its position. *)
Ltac in_at n := apply (nth_error_In _ n); vm_compute; reflexivity.

Ltac in_explicit_from n fuel :=
  lazymatch fuel with
  | O => fail "not found"
  | S ?fuel' => first [in_at n | in_explicit_from (S n) fuel']
  end.

Ltac in_explicit := in_explicit_from 0 40.

Lemma C6_backup_failure_witness :
  exitStatus (outcome (run Scenario.cfg backupFailsTwoLines Scenario.env0)) = 1%Z
  /\ (exists t0,
        trace (run Scenario.cfg backupFailsTwoLines Scenario.env0)
        = t0 ++ [EvLog (lineEntry Scenario.cfg ErrorLevel "backup" "repository locked");
                 EvLog (lineEntry Scenario.cfg ErrorLevel "backup" "unable to create lock");
                 EvLog (failedEntry Scenario.cfg "backup" "exit status 1");
                 EvLog (commandFailedEntry Scenario.cfg "backup" "Backup failed")])
  /\ count isMetrics (trace (run Scenario.cfg backupFailsTwoLines Scenario.env0)) = 0.
Proof.
  destruct (C6_backup_failure Scenario.cfg backupFailsTwoLines Scenario.env0
              (finalEnv (run Scenario.cfg backupFailsTwoLines Scenario.env0))
              "scanning"
              (" " +:+ String newline "repository locked"
                 +:+ String newline "unable to create lock" +:+ String newline EmptyString)
              "exit status 1")
    as [Hexit [[t0 Ht] [_ [_ [Hmetrics _]]]]].
  - in_explicit.
  - reflexivity.
  - split; [exact Hexit|]. split; [|exact Hmetrics].
    exists (t0 ++ [EvEngine (enginePath Scenario.cfg)
                     (backupArgs Scenario.cfg backupFailsTwoLines)
                     (finalEnv (run Scenario.cfg backupFailsTwoLines Scenario.env0))]).
    rewrite Ht, <- app_assoc. reflexivity.
Defined.

(** C6, as claimed, fails for white space at the ends of stderr: the backup
    command fails with a first line that holds one space; that line is not
    empty, and no entry carries it. *)
Lemma C6_counterexample :
  In (EvEngine (enginePath Scenario.cfg) (backupArgs Scenario.cfg backupFailsTwoLines)
               (finalEnv (run Scenario.cfg backupFailsTwoLines Scenario.env0)))
     (trace (run Scenario.cfg backupFailsTwoLines Scenario.env0))
  /\ restic_Run backupFailsTwoLines (enginePath Scenario.cfg)
       (backupArgs Scenario.cfg backupFailsTwoLines)
       (finalEnv (run Scenario.cfg backupFailsTwoLines Scenario.env0))
     = ("scanning",
        " " +:+ String newline "repository locked"
          +:+ String newline "unable to create lock" +:+ String newline EmptyString,
        Some "exit status 1")
  /\ In " " (SplitLines (" " +:+ String newline "repository locked"
                           +:+ String newline "unable to create lock"
                           +:+ String newline EmptyString))
  /\ " " <> EmptyString
  /\ ~ In " " (map message
                  (entries (trace (run Scenario.cfg backupFailsTwoLines Scenario.env0)))).
Proof.
  split; [in_explicit|]. split; [reflexivity|]. split; [left; reflexivity|].
  split; [discriminate|].
  vm_compute. intros H.
  repeat (destruct H as [H|H]; [discriminate H|]). exact H.
Qed.

(** C8. When the backup command of a run succeeds, cleanup is enabled and
    the forget command ends with an error, the failure is logged ("Forget
    failed") and nothing more comes of it: the metrics push follows, then the
    completion entry, [main] returns and the exit status is 0. *)
Theorem C8_forget_failure_not_fatal (cfg : Config) (w : World)
    (env0 env : gmap string string) (stdout stderr stdout' stderr' e : string) :
  CleanupOldBackups cfg = true ->
  In (EvEngine (enginePath cfg) (backupArgs cfg w) env) (trace (run cfg w env0)) ->
  restic_Run w (enginePath cfg) (backupArgs cfg w) env = (stdout, stderr, None) ->
  restic_Run w (enginePath cfg) forgetArgs env = (stdout', stderr', Some e) ->
  (exists t0,
     trace (run cfg w env0)
     = t0 ++ EvEngine (enginePath cfg) forgetArgs env
          :: map (fun line => EvLog (lineEntry cfg ErrorLevel "forget" line))
                 (nonEmptyLines stderr')
          ++ [EvLog (failedEntry cfg "forget" e);
              EvLog (commandFailedEntry cfg "forget" "Forget failed")]
          ++ metricsTrace cfg w
          ++ [EvLog (completedEntry w); EvCancel; EvUnlock (lockPath cfg w)])
  /\ In EvLoadAwsConfig (trace (run cfg w env0))
  /\ (aws_LoadDefaultConfig w = None ->
      In (EvPutMetricData (HostName cfg) (time_Since w)) (trace (run cfg w env0)))
  /\ In (EvLog (completedEntry w)) (trace (run cfg w env0))
  /\ outcome (run cfg w env0) = Returns tt
  /\ exitStatus (outcome (run cfg w env0)) = 0%Z.
Proof.
  intros Hcleanup Hin Hbackup Hforget. revert Hin.
  by_path cfg w env0; intros Hin; try (split_in Hin; discriminate).
  - exfalso. split_in Hin; try discriminate.
    exact (engine_not_in_setup _ _ _ _ _ _ _ _ _ Hsetup Hin).
  - exfalso. split_in Hin; try discriminate.
    + exact (engine_not_in_setup _ _ _ _ _ _ _ _ _ Hsetup Hin).
    + apply In_engineTrace in Hin as [_ [_ ->]]. congruence.
  - assert (Henv : env = env1).
    { split_in Hin; try discriminate.
      + exfalso. exact (engine_not_in_setup _ _ _ _ _ _ _ _ _ Hsetup Hin).
      + apply In_engineTrace in Hin. tauto.
      + apply In_pruneTrace in Hin. tauto.
      + exfalso. exact (engine_not_in_metrics _ _ _ _ _ Hin). }
    subst env1. clear Hin.
    assert (Hprune : pruneTrace cfg w env
                     = EvEngine (enginePath cfg) forgetArgs env
                         :: lineEvents cfg ErrorLevel "forget" stderr'
                         ++ [EvLog (failedEntry cfg "forget" e);
                             EvLog (commandFailedEntry cfg "forget" "Forget failed")]).
    { unfold pruneTrace, engineTrace. rewrite Hcleanup.
      change ("forget" :: tl forgetArgs) with forgetArgs.
      rewrite Hforget. cbn [app]. rewrite <- ?app_assoc. reflexivity. }
    rewrite Hprune. split; [|split; [|split; [|split; [|split]]]]; try reflexivity.
    + exists ([EvTryLock (lockPath cfg w); EvLookPath (enginePath cfg); EvPmset pmsetArgs]
              ++ t1 ++ engineTrace cfg w "backup" (tl (backupArgs cfg w)) env).
      unfold lineEvents. cbn [app]. rewrite <- ?app_assoc. cbn [app].
      rewrite <- ?app_assoc. reflexivity.
    + rewrite !in_app_iff. right. right. right. right. left. left. reflexivity.
    + intros Hload. rewrite !in_app_iff. right. right. right. right. left.
      unfold metricsTrace. rewrite Hload. right. left. reflexivity.
    + rewrite !in_app_iff. right. right. right. right. right. left. reflexivity.
Qed.

Lemma C8_forget_failure_not_fatal_witness :
  In EvLoadAwsConfig (trace (run Scenario.cfg Scenario.forgetFails Scenario.env0))
  /\ In (EvLog (completedEntry Scenario.forgetFails))
        (trace (run Scenario.cfg Scenario.forgetFails Scenario.env0))
  /\ exitStatus (outcome (run Scenario.cfg Scenario.forgetFails Scenario.env0)) = 0%Z.
Proof.
  destruct (C8_forget_failure_not_fatal Scenario.cfg Scenario.forgetFails Scenario.env0
              (finalEnv (run Scenario.cfg Scenario.forgetFails Scenario.env0))
              "snapshot 1a2b3c saved" EmptyString EmptyString "prune failed" "exit status 1")
    as [_ [Hload [_ [Hdone [_ Hexit]]]]].
  - reflexivity.
  - in_explicit.
  - reflexivity.
  - reflexivity.
  - split; [exact Hload|]. split; [exact Hdone | exact Hexit].
Defined.

Lemma security_not_in_engineTrace a cfg w op args env :
  ~ In (EvSecurity a) (engineTrace cfg w op args env).
Proof.
  apply (count_zero_not_In isSecurity); [|reflexivity].
  rewrite count_engineTrace; reflexivity.
Qed.

Lemma security_not_in_pruneTrace a cfg w env :
  ~ In (EvSecurity a) (pruneTrace cfg w env).
Proof.
  apply (count_zero_not_In isSecurity); [|reflexivity].
  apply count_pruneTrace; reflexivity.
Qed.

Lemma security_not_in_metricsTrace a cfg w :
  ~ In (EvSecurity a) (metricsTrace cfg w).
Proof.
  apply (count_zero_not_In isSecurity); [|reflexivity].
  apply count_metricsTrace; reflexivity.
Qed.

Lemma setupEnv_fatal cfg w env0 o env1 t1 args out e :
  setupEnv cfg w env0 = (o, env1, t1) ->
  In (EvSecurity args) t1 ->
  security_CombinedOutput w args = (out, Some e) ->
  o = OsExit 1
  /\ exists t0, t1 = t0 ++ [EvSecurity args; EvLog (fatalEntry (SecurityService cfg) e)].
Proof.
  intros Hsetup Hin Herr.
  pose proof (setenvAll_fatal cfg w secretTable env0 args out e) as H.
  rewrite <- setupEnv_setenvAll, Hsetup in H. exact (H Hin Herr).
Qed.

(** C7 (as the code has it).  A keychain query of a run that ends with an
    error (a non-zero exit or the one-minute deadline) is the last thing the
    process does: the fatal entry follows the query at once, the process
    exits with status 1 and the engine is not invoked.  A query that succeeds
    is not examined further: [getSecurityData] returns its trimmed output,
    empty or not. *)
Theorem C7_failed_fetch_is_fatal (cfg : Config) (w : World) (env0 : gmap string string) :
  (forall args out e,
     In (EvSecurity args) (trace (run cfg w env0)) ->
     security_CombinedOutput w args = (out, Some e) ->
     outcome (run cfg w env0) = OsExit 1
     /\ exitStatus (outcome (run cfg w env0)) = 1%Z
     /\ count isEngine (trace (run cfg w env0)) = 0
     /\ exists t0,
         trace (run cfg w env0)
         = t0 ++ [EvSecurity args; EvLog (fatalEntry (SecurityService cfg) e)])
  /\ (forall service account out env,
        security_CombinedOutput w (securityArgs service account) = (out, None) ->
        getSecurityData w service account env
        = (Returns (TrimSpace out), env, [EvSecurity (securityArgs service account)])).
Proof.
  split.
  - intros args out e Hin Herr. revert Hin.
    by_path cfg w env0; intros Hin; try (split_in Hin; discriminate).
    + split_in Hin; try discriminate.
      destruct (setupEnv_fatal _ _ _ _ _ _ _ _ _ Hsetup Hin Herr) as [_ [t0 ->]].
      split; [reflexivity|]. split; [reflexivity|]. split.
      * rewrite count_app, (count_setup_trace _ _ _ _ _ _ _ Hsetup) by reflexivity.
        reflexivity.
      * exists ([EvTryLock (lockPath cfg w); EvLookPath (enginePath cfg);
                 EvPmset pmsetArgs] ++ t0).
        rewrite <- app_assoc. reflexivity.
    + exfalso. split_in Hin; try discriminate.
      * destruct (setupEnv_fatal _ _ _ _ _ _ _ _ _ Hsetup Hin Herr) as [Ho _].
        discriminate.
      * exact (security_not_in_engineTrace _ _ _ _ _ _ Hin).
    + exfalso. split_in Hin; try discriminate.
      * destruct (setupEnv_fatal _ _ _ _ _ _ _ _ _ Hsetup Hin Herr) as [Ho _].
        discriminate.
      * exact (security_not_in_engineTrace _ _ _ _ _ _ Hin).
      * exact (security_not_in_pruneTrace _ _ _ _ Hin).
      * exact (security_not_in_metricsTrace _ _ _ Hin).
  - intros service account out env Hok.
    rewrite getSecurityData_eq, Hok. reflexivity.
Qed.

Lemma C7_failed_fetch_is_fatal_witness :
  exitStatus (outcome (run Scenario.cfg Scenario.repositoryTimeout Scenario.env0)) = 1%Z
  /\ count isEngine (trace (run Scenario.cfg Scenario.repositoryTimeout Scenario.env0)) = 0
  /\ getSecurityData Scenario.emptyPassword "restic_backup" "password" Scenario.env0
     = (Returns EmptyString, Scenario.env0, [EvSecurity (securityArgs "restic_backup" "password")]).
Proof.
  destruct (C7_failed_fetch_is_fatal Scenario.cfg Scenario.repositoryTimeout Scenario.env0)
    as [Hfatal _].
  destruct (Hfatal (securityArgs "restic_backup" "repository") EmptyString "signal: killed")
    as [_ [Hexit [Hengine _]]].
  - in_explicit.
  - reflexivity.
  - split; [exact Hexit|]. split; [exact Hengine|].
    destruct (C7_failed_fetch_is_fatal Scenario.cfg Scenario.emptyPassword Scenario.env0)
      as [_ Hok].
    exact (Hok "restic_backup" "password" (String newline EmptyString) Scenario.env0 eq_refl).
Defined.

(** C7, as claimed, fails for the empty result: with an empty password in
    the keychain the query succeeds, [RESTIC_PASSWORD] is set to the empty
    string, and the run goes on to invoke the engine and returns. *)
Lemma C7_counterexample :
  security_CombinedOutput Scenario.emptyPassword (securityArgs "restic_backup" "password")
  = (String newline EmptyString, None)
  /\ TrimSpace (String newline EmptyString) = EmptyString
  /\ finalEnv (run Scenario.cfg Scenario.emptyPassword Scenario.env0) !! "RESTIC_PASSWORD"
     = Some EmptyString
  /\ In (EvEngine (enginePath Scenario.cfg)
                  (backupArgs Scenario.cfg Scenario.emptyPassword)
                  (finalEnv (run Scenario.cfg Scenario.emptyPassword Scenario.env0)))
        (trace (run Scenario.cfg Scenario.emptyPassword Scenario.env0))
  /\ outcome (run Scenario.cfg Scenario.emptyPassword Scenario.env0) = Returns tt.
Proof.
  split; [reflexivity|]. split; [reflexivity|]. split; [reflexivity|].
  split; [in_explicit | reflexivity].
Qed.

(** [runResticCommand] with an empty argument list. *)
Lemma runResticCommand_nil cfg w env :
  runResticCommand cfg w [] env
  = let '(stdout, stderr, err) := restic_Run w (enginePath cfg) [] env in
    let outcome :=
      match err with
      | Some _ => Panics panicIndex0
      | None =>
          if existsb (fun line => negb (String.eqb line EmptyString))
                     (SplitLines (TrimSpace stdout))
          then Panics panicIndex0
          else Returns None
      end in
    (outcome, env, [EvEngine (enginePath cfg) [] env]).
Proof.
  unfold runResticCommand, bind, os_Environ, emit, enginePath.
  destruct (restic_Run w (Path (Restic cfg)) [] env) as [[stdout stderr] [e|]];
    rewrite logLines_nil.
  - destruct (existsb _ _); reflexivity.
  - destruct (existsb _ _); reflexivity.
Qed.

(** C9. [runResticCommand] reads [args[0]] for the [operation] field of its
    entries.  With a non-empty argument list it always returns (the error of
    the command, or none); with an empty list it panics as soon as it has an
    entry to write, which is always the case when the command fails.  In a
    run of [main] every engine invocation carries the [backup] or the
    [forget] argument list, and no run panics. *)
Theorem C9_operation_index_in_bounds (cfg : Config) (w : World) :
  (forall op args env,
     exists err t, runResticCommand cfg w (op :: args) env = (Returns err, env, t))
  /\ (forall env,
        outcomeOf (runResticCommand cfg w [] env)
        = match restic_Run w (enginePath cfg) [] env with
          | (_, _, Some _) => Panics panicIndex0
          | (stdout, _, None) =>
              if existsb (fun line => negb (String.eqb line EmptyString))
                         (SplitLines (TrimSpace stdout))
              then Panics panicIndex0
              else Returns None
          end)
  /\ (forall env0,
        Forall (fun ev =>
                  match ev with
                  | EvEngine _ args _ =>
                      (args = backupArgs cfg w /\ head args = Some "backup")
                      \/ (args = forgetArgs /\ head args = Some "forget")
                  | _ => True
                  end) (trace (run cfg w env0)))
  /\ (forall env0,
        outcome (run cfg w env0) = Returns tt \/ outcome (run cfg w env0) = OsExit 1).
Proof.
  split; [|split; [|split]].
  - intros op args env. rewrite runResticCommand_trace. eauto.
  - intros env. rewrite runResticCommand_nil.
    destruct (restic_Run w (enginePath cfg) [] env) as [[stdout stderr] [e|]]; reflexivity.
  - intros env0. apply List.Forall_forall. intros ev Hin.
    destruct ev as [| | | | | | |path args env| | |]; try exact I.
    revert Hin.
    by_path cfg w env0; intros Hin; try (split_in Hin; discriminate).
    + exfalso. split_in Hin; try discriminate.
      exact (engine_not_in_setup _ _ _ _ _ _ _ _ _ Hsetup Hin).
    + split_in Hin; try discriminate.
      * exfalso. exact (engine_not_in_setup _ _ _ _ _ _ _ _ _ Hsetup Hin).
      * apply In_engineTrace in Hin as [_ [-> _]]. left. split; reflexivity.
    + split_in Hin; try discriminate.
      * exfalso. exact (engine_not_in_setup _ _ _ _ _ _ _ _ _ Hsetup Hin).
      * apply In_engineTrace in Hin as [_ [-> _]]. left. split; reflexivity.
      * apply In_pruneTrace in Hin as [_ [_ [-> _]]]. right. split; reflexivity.
      * exfalso. exact (engine_not_in_metrics _ _ _ _ _ Hin).
  - intros env0. by_path cfg w env0; auto.
Qed.

Lemma C9_operation_index_in_bounds_witness :
  outcomeOf (runResticCommand Scenario.cfg Scenario.forgetFails [] Scenario.env0)
  = Panics panicIndex0
  /\ outcome (run Scenario.cfg Scenario.forgetFails Scenario.env0) = Returns tt.
Proof.
  destruct (C9_operation_index_in_bounds Scenario.cfg Scenario.forgetFails)
    as [_ [Hnil [_ Hout]]].
  split.
  - rewrite Hnil. reflexivity.
  - destruct (Hout Scenario.env0) as [H|H]; [exact H|].
    vm_compute in H. discriminate H.
Defined.

(** C10 (as the code has it).  [setupEnv] leaves every variable outside the
    five untouched, whatever its outcome; when it returns it has called
    [os.Setenv] for the five variables, in order, each with the trimmed
    output of its keychain query.  A variable then holds that value when
    [os.Setenv] accepts it, that is when the value has no NUL byte; when it
    does not, the error is not looked at and the variable is as it was at
    the start.  [runResticCommand] hands the environment of the process, as
    it is at the call, to the engine and does not change it.  Hence every
    engine invocation of a run receives the initial environment with the
    accepted values of the five variables set on top of it. *)
Theorem C10_environment_frame (cfg : Config) (w : World) (env0 : gmap string string) :
  (forall k, ~ In k secretVars -> envOf (setupEnv cfg w env0) !! k = env0 !! k)
  /\ (forall key value,
        In (EvSetenv key value) (traceOf (setupEnv cfg w env0)) -> In key secretVars)
  /\ (outcomeOf (setupEnv cfg w env0) = Returns tt ->
      omap setenvKey (traceOf (setupEnv cfg w env0)) = secretVars
      /\ Forall (fun '(account, var) =>
                   exists out,
                     security_CombinedOutput w (securityArgs (SecurityService cfg) account)
                     = (out, None)
                     /\ setenvValid var (TrimSpace out) = negb (hasByte nul (TrimSpace out))
                     /\ envOf (setupEnv cfg w env0) !! var
                        = if setenvValid var (TrimSpace out) then Some (TrimSpace out)
                          else env0 !! var)
                secretTable)
  /\ (forall args env,
        head (traceOf (runResticCommand cfg w args env))
        = Some (EvEngine (enginePath cfg) args env)
        /\ envOf (runResticCommand cfg w args env) = env)
  /\ (forall path args env,
        In (EvEngine path args env) (trace (run cfg w env0)) ->
        env = envOf (setupEnv cfg w env0)
        /\ (forall k, ~ In k secretVars -> env !! k = env0 !! k)
        /\ Forall (fun '(account, var) =>
                     exists out,
                       security_CombinedOutput w (securityArgs (SecurityService cfg) account)
                       = (out, None)
                       /\ env !! var
                          = if setenvValid var (TrimSpace out) then Some (TrimSpace out)
                            else env0 !! var)
                  secretTable).
Proof.
  assert (Hframe : forall k, ~ In k secretVars ->
                             envOf (setupEnv cfg w env0) !! k = env0 !! k).
  { intros k Hk. rewrite setupEnv_setenvAll. apply setenvAll_frame. exact Hk. }
  assert (Hvalues : outcomeOf (setupEnv cfg w env0) = Returns tt ->
                    omap setenvKey (traceOf (setupEnv cfg w env0)) = secretVars
                    /\ Forall (fun '(account, var) =>
                                 exists out,
                                   security_CombinedOutput w
                                     (securityArgs (SecurityService cfg) account)
                                   = (out, None)
                                   /\ envOf (setupEnv cfg w env0) !! var
                                      = if setenvValid var (TrimSpace out)
                                        then Some (TrimSpace out)
                                        else env0 !! var)
                              secretTable).
  { rewrite setupEnv_setenvAll. intros Ho.
    destruct (setenvAll_success cfg w secretTable env0) as [Hall Hkeys]; [|exact Ho|].
    - repeat constructor; cbn [map snd In]; intuition discriminate.
    - split; [exact Hkeys | exact Hall]. }
  split; [exact Hframe|]. split; [|split; [|split]].
  - intros key value Hin. rewrite setupEnv_setenvAll in Hin.
    exact (setenvAll_keys cfg w secretTable env0 key value Hin).
  - intros Ho. destruct (Hvalues Ho) as [Hkeys Hall]. split; [exact Hkeys|].
    rewrite List.Forall_forall in Hall |- *. intros [account var] Hin.
    destruct (Hall _ Hin) as [out [Hsec Hval]].
    exists out. split; [exact Hsec|]. split; [|exact Hval].
    cbn [secretTable In] in Hin.
    repeat (destruct Hin as [Hin|Hin]; [injection Hin as <- <-; reflexivity|]).
    destruct Hin.
  - intros [|op args] env.
    + rewrite runResticCommand_nil.
      destruct (restic_Run w (enginePath cfg) [] env) as [[stdout stderr] [e|]];
        split; reflexivity.
    + rewrite runResticCommand_trace. unfold engineTrace.
      destruct (restic_Run w (enginePath cfg) (op :: args) env) as [[stdout stderr] [e|]];
        split; reflexivity.
  - intros path args env Hin.
    assert (Hsetup' : setupEnv cfg w env0 = (Returns tt, env, traceOf (setupEnv cfg w env0))).
    { revert Hin.
      by_path cfg w env0; intros Hin; try (split_in Hin; discriminate).
      - exfalso. split_in Hin; try discriminate.
        exact (engine_not_in_setup _ _ _ _ _ _ _ _ _ Hsetup Hin).
      - rewrite Hsetup. split_in Hin; try discriminate.
        + exfalso. exact (engine_not_in_setup _ _ _ _ _ _ _ _ _ Hsetup Hin).
        + apply In_engineTrace in Hin as [_ [_ ->]]. reflexivity.
      - rewrite Hsetup. split_in Hin; try discriminate.
        + exfalso. exact (engine_not_in_setup _ _ _ _ _ _ _ _ _ Hsetup Hin).
        + apply In_engineTrace in Hin as [_ [_ ->]]. reflexivity.
        + apply In_pruneTrace in Hin as [_ [_ [_ ->]]]. reflexivity.
        + exfalso. exact (engine_not_in_metrics _ _ _ _ _ Hin). }
    assert (Henv : env = envOf (setupEnv cfg w env0)) by (rewrite Hsetup'; reflexivity).
    split; [exact Henv|]. subst env. split; [exact Hframe|].
    apply Hvalues. rewrite Hsetup'. reflexivity.
Qed.

Lemma C10_environment_frame_witness :
  finalEnv (run Scenario.cfg Scenario.allGood Scenario.env0) !! "HOME" = Some "/Users/me"
  /\ finalEnv (run Scenario.cfg Scenario.allGood Scenario.env0) !! "RESTIC_PASSWORD"
     = Some "secret-of-password".
Proof.
  destruct (C10_environment_frame Scenario.cfg Scenario.allGood Scenario.env0)
    as [_ [_ [_ [_ Hengine]]]].
  destruct (Hengine (enginePath Scenario.cfg) forgetArgs
              (finalEnv (run Scenario.cfg Scenario.allGood Scenario.env0)))
    as [_ [Hframe Hall]].
  - in_explicit.
  - split.
    + rewrite Hframe; [reflexivity|].
      cbn [secretVars In]. intuition discriminate.
    + apply List.Forall_forall with (x := ("password", "RESTIC_PASSWORD")) in Hall.
      * destruct Hall as [out [Hout Hval]]. rewrite Hval.
        vm_compute in Hout. injection Hout as <-. reflexivity.
      * cbn [secretTable In]. do 4 right. left. reflexivity.
Defined.

(** C10, as claimed, fails for a value [os.Setenv] does not accept: the
    keychain holds a password with a NUL byte; [setupEnv] returns, the
    engine is invoked, and [RESTIC_PASSWORD] is not in its environment. *)
Lemma C10_counterexample :
  security_CombinedOutput nulPassword (securityArgs "restic_backup" "password")
  = ("ab" +:+ String nul "cd" +:+ String newline EmptyString, None)
  /\ outcomeOf (setupEnv Scenario.cfg nulPassword Scenario.env0) = Returns tt
  /\ envOf (setupEnv Scenario.cfg nulPassword Scenario.env0) !! "RESTIC_PASSWORD" = None
  /\ In (EvEngine (enginePath Scenario.cfg) (backupArgs Scenario.cfg nulPassword)
                  (finalEnv (run Scenario.cfg nulPassword Scenario.env0)))
        (trace (run Scenario.cfg nulPassword Scenario.env0))
  /\ finalEnv (run Scenario.cfg nulPassword Scenario.env0) !! "RESTIC_PASSWORD" = None
  /\ finalEnv (run Scenario.cfg nulPassword Scenario.env0) !! "RESTIC_REPOSITORY"
     = Some "secret-of-repository".
Proof.
  split; [reflexivity|]. split; [vm_compute; reflexivity|].
  split; [vm_compute; reflexivity|]. split; [in_explicit|].
  split; vm_compute; reflexivity.
Qed.

Lemma nonEmptyLines_nonempty buffer :
  Forall (fun line => line <> EmptyString) (nonEmptyLines buffer).
Proof.
  apply List.Forall_forall. intros line Hin.
  apply filter_In in Hin as [_ Hne]. intros ->. discriminate Hne.
Qed.

Lemma entries_engineTrace cfg w op args env :
  entries (engineTrace cfg w op args env)
  = match restic_Run w (enginePath cfg) (op :: args) env with
    | (_, stderr, Some e) =>
        map (lineEntry cfg ErrorLevel op) (nonEmptyLines stderr) ++ [failedEntry cfg op e]
    | (stdout, _, None) => map (lineEntry cfg InfoLevel op) (nonEmptyLines stdout)
    end.
Proof.
  unfold engineTrace.
  destruct (restic_Run w (enginePath cfg) (op :: args) env) as [[stdout stderr] [e|]].
  - change (entries (?ev :: ?t)) with (entries t).
    rewrite entries_app, entries_lineEvents. reflexivity.
  - change (entries (?ev :: ?t)) with (entries t).
    apply entries_lineEvents.
Qed.

(** C2 (as the code has it).  The exit status of the command selects the
    stream that is logged.  After an error the log receives one error-level
    entry per non-empty line of the trimmed stderr, in order, then the entry
    carrying the error, and nothing of stdout; after a success it receives
    one info-level entry per non-empty line of the trimmed stdout, and
    nothing of stderr. *)
Theorem C2_logged_stream_by_exit_status (cfg : Config) (w : World) (op : string)
    (args : list string) (env : gmap string string) (stdout stderr : string) (err : error) :
  restic_Run w (enginePath cfg) (op :: args) env = (stdout, stderr, err) ->
  outcomeOf (runResticCommand cfg w (op :: args) env) = Returns err
  /\ entries (traceOf (runResticCommand cfg w (op :: args) env))
     = match err with
       | Some e =>
           map (lineEntry cfg ErrorLevel op) (nonEmptyLines stderr) ++ [failedEntry cfg op e]
       | None => map (lineEntry cfg InfoLevel op) (nonEmptyLines stdout)
       end
  /\ Forall (fun line => line <> EmptyString) (nonEmptyLines stderr)
  /\ Forall (fun line => line <> EmptyString) (nonEmptyLines stdout).
Proof.
  intros Hrun. rewrite runResticCommand_trace. cbn [outcomeOf traceOf fst snd].
  rewrite entries_engineTrace, Hrun. cbn [snd].
  split; [reflexivity|]. split; [destruct err; reflexivity|].
  split; apply nonEmptyLines_nonempty.
Qed.

Lemma C2_logged_stream_by_exit_status_witness :
  entries (traceOf (runResticCommand Scenario.cfg Scenario.backupFails
                      (backupArgs Scenario.cfg Scenario.backupFails) Scenario.env0))
  = [lineEntry Scenario.cfg ErrorLevel "backup" "repository locked";
     failedEntry Scenario.cfg "backup" "exit status 2"].
Proof.
  destruct (C2_logged_stream_by_exit_status Scenario.cfg Scenario.backupFails "backup"
              (tl (backupArgs Scenario.cfg Scenario.backupFails)) Scenario.env0
              "scanning" ("repository locked" +:+ String newline EmptyString)
              (Some "exit status 2"))
    as [_ [Hentries _]].
  - reflexivity.
  - exact Hentries.
Defined.

(** C2, as claimed, fails for stderr after a success: the backup command
    exits zero with one line on stderr, and no entry carries that line. *)
Lemma C2_counterexample :
  restic_Run Scenario.warningOnSuccess (enginePath Scenario.cfg)
    (backupArgs Scenario.cfg Scenario.warningOnSuccess) Scenario.env0
  = ("snapshot 1a2b3c saved", "warning: cache is stale", None)
  /\ In "warning: cache is stale" (nonEmptyLines "warning: cache is stale")
  /\ ~ In "warning: cache is stale"
        (map message
           (entries (traceOf (runResticCommand Scenario.cfg Scenario.warningOnSuccess
                                (backupArgs Scenario.cfg Scenario.warningOnSuccess)
                                Scenario.env0)))).
Proof.
  split; [reflexivity|]. split; [left; reflexivity|].
  vm_compute. intros [H|[]]. discriminate H.
Qed.

(** C1 (the code departs from it).  With the lock acquired, the deferred
    [Unlock] runs once when [main] returns, as in the run where everything
    succeeds.  In the run where the backup command fails and in the run where
    a keychain query fails the process is ended by [os.Exit (1)] and the
    trace holds no [Unlock] at all. *)
Theorem C1_unlock_skipped_by_os_exit :
  flock_TryLock Scenario.allGood (lockPath Scenario.cfg Scenario.allGood) = (true, None)
  /\ outcome (run Scenario.cfg Scenario.allGood Scenario.env0) = Returns tt
  /\ count isUnlock (trace (run Scenario.cfg Scenario.allGood Scenario.env0)) = 1
  /\ flock_TryLock Scenario.backupFails (lockPath Scenario.cfg Scenario.backupFails)
     = (true, None)
  /\ outcome (run Scenario.cfg Scenario.backupFails Scenario.env0) = OsExit 1
  /\ count isUnlock (trace (run Scenario.cfg Scenario.backupFails Scenario.env0)) = 0
  /\ flock_TryLock Scenario.repositoryTimeout
       (lockPath Scenario.cfg Scenario.repositoryTimeout) = (true, None)
  /\ outcome (run Scenario.cfg Scenario.repositoryTimeout Scenario.env0) = OsExit 1
  /\ count isUnlock (trace (run Scenario.cfg Scenario.repositoryTimeout Scenario.env0)) = 0.
Proof. repeat split; vm_compute; reflexivity. Qed.

(** ** Further properties of [main] *)

(** X1. When the power check of a run fails, whatever [require_ac_power]
    is, the run writes one error entry and [main] returns: no keychain
    query, no engine invocation, no metrics; the lock is released and the
    exit status is 0. *)
Theorem power_check_error_stops_run (cfg : Config) (w : World)
    (env0 : gmap string string) (output e : string) :
  In (EvPmset pmsetArgs) (trace (run cfg w env0)) ->
  pmset_Output w = (output, Some e) ->
  run cfg w env0
  = {| outcome := Returns tt; finalEnv := env0;
       trace := [EvTryLock (lockPath cfg w); EvLookPath (enginePath cfg);
                 EvPmset pmsetArgs; EvLog (powerErrorEntry e);
                 EvCancel; EvUnlock (lockPath cfg w)] |}.
Proof.
  intros Hin Hpm'. revert Hin.
  by_path cfg w env0; intros Hin; try (split_in Hin; discriminate); congruence.
Qed.

Lemma power_check_error_stops_run_witness :
  exitStatus (outcome (run Scenario.cfg
                         (Scenario.withPmset (EmptyString, Some "exit status 1")
                                             Scenario.allGood)
                         Scenario.env0)) = 0%Z.
Proof.
  rewrite (power_check_error_stops_run Scenario.cfg
             (Scenario.withPmset (EmptyString, Some "exit status 1") Scenario.allGood)
             Scenario.env0 EmptyString "exit status 1").
  - reflexivity.
  - in_explicit.
  - reflexivity.
Defined.

(** X2. When [require_ac_power] is off, the answer of a successful power
    check has no influence on the run: two worlds that differ only in the
    text the check prints produce the same run. *)
Theorem power_state_ignored_when_not_required (cfg : Config) (w : World)
    (env0 : gmap string string) (output output' : string) :
  RequireAcPower cfg = false ->
  pmset_Output w = (output, None) ->
  run cfg (Scenario.withPmset (output', None) w) env0 = run cfg w env0.
Proof.
  intros Hreq Hpm.
  unfold run, main, defer, mainBody, isOnPower, bind.
  cbn [Scenario.withPmset filepath_Join flock_TryLock exec_LookPath pmset_Output emit ret].
  rewrite Hpm, Hreq. cbn [andb]. reflexivity.
Qed.

Lemma power_state_ignored_when_not_required_witness :
  count isEngine (trace (run cfgPlain Scenario.onBattery Scenario.env0)) = 1.
Proof.
  unfold Scenario.onBattery.
  rewrite (power_state_ignored_when_not_required cfgPlain Scenario.allGood Scenario.env0
             ("Now drawing from 'AC Power'" +:+ String newline EmptyString)
             ("Now drawing from 'Battery Power'" +:+ String newline EmptyString)
             eq_refl eq_refl).
  reflexivity.
Defined.

(** Unfolds one row of the table and names the two cases. *)
Ltac setenv_row cfg w IH :=
  let out := fresh "out" in
  let e := fresh "e" in
  let Hsec := fresh "Hsec" in
  let o := fresh "o" in
  let env' := fresh "env'" in
  let t := fresh "t" in
  let Hrest := fresh "Hrest" in
  rewrite setenvAll_cons;
  destruct (security_CombinedOutput w (securityArgs (SecurityService cfg) _))
    as [out [e|]] eqn:Hsec;
  [ cbn [outcomeOf envOf traceOf fst snd]
  | match goal with
    | |- context [setenvAll cfg w ?rest ?env1] =>
        pose proof (IH env1) as IH;
        destruct (setenvAll cfg w rest env1) as [[o env'] t] eqn:Hrest;
        cbn [outcomeOf envOf traceOf fst snd] in IH |- *
    end ].

Lemma setenvAll_exit_last cfg w tbl env :
  outcomeOf (setenvAll cfg w tbl env) = OsExit 1 ->
  exists t0 args out e,
    security_CombinedOutput w args = (out, Some e)
    /\ traceOf (setenvAll cfg w tbl env)
       = t0 ++ [EvSecurity args; EvLog (fatalEntry (SecurityService cfg) e)].
Proof.
  revert env. induction tbl as [|[account var] rest IH]; intros env.
  - discriminate.
  - setenv_row cfg w IH.
    + intros _. exists [], (securityArgs (SecurityService cfg) account), out, e.
      split; [exact Hsec | reflexivity].
    + intros Ho. destruct (IH Ho) as [t0 [args [out' [e [Herr Ht]]]]].
      exists (EvSecurity (securityArgs (SecurityService cfg) account)
                :: EvSetenv var (TrimSpace out) :: t0), args, out', e.
      split; [exact Herr | rewrite Ht; reflexivity].
Qed.

Lemma setenvAll_untouched cfg w tbl env :
  count isSetenv (traceOf (setenvAll cfg w tbl env)) = 0 ->
  envOf (setenvAll cfg w tbl env) = env.
Proof.
  destruct tbl as [|[account var] rest]; [reflexivity|].
  rewrite setenvAll_cons.
  destruct (security_CombinedOutput w _) as [out [e|]]; [reflexivity|].
  destruct (setenvAll cfg w rest _) as [[o env'] t].
  cbn [traceOf snd]. rewrite !count_cons. cbn [isSetenv]. discriminate.
Qed.

(** X3. When the backup command of a run succeeds, the run always reaches
    the end of [main]: whatever the retention step and the metrics push do,
    the trace ends with the metrics step, the completion entry and the
    deferred calls, the lock is released once, [main] returns and the exit
    status is 0. *)
Theorem backup_success_completes (cfg : Config) (w : World)
    (env0 env : gmap string string) (stdout stderr : string) :
  In (EvEngine (enginePath cfg) (backupArgs cfg w) env) (trace (run cfg w env0)) ->
  restic_Run w (enginePath cfg) (backupArgs cfg w) env = (stdout, stderr, None) ->
  outcome (run cfg w env0) = Returns tt
  /\ exitStatus (outcome (run cfg w env0)) = 0%Z
  /\ finalEnv (run cfg w env0) = env
  /\ (exists t0,
        trace (run cfg w env0)
        = t0 ++ EvEngine (enginePath cfg) (backupArgs cfg w) env
             :: map (fun line => EvLog (lineEntry cfg InfoLevel "backup" line))
                    (nonEmptyLines stdout)
             ++ pruneTrace cfg w env
             ++ metricsTrace cfg w
             ++ [EvLog (completedEntry w); EvCancel; EvUnlock (lockPath cfg w)])
  /\ count isUnlock (trace (run cfg w env0)) = 1.
Proof.
  intros Hin Hok. revert Hin.
  by_path cfg w env0; intros Hin; try (split_in Hin; discriminate).
  - exfalso. split_in Hin; try discriminate.
    exact (engine_not_in_setup _ _ _ _ _ _ _ _ _ Hsetup Hin).
  - exfalso. split_in Hin; try discriminate.
    + exact (engine_not_in_setup _ _ _ _ _ _ _ _ _ Hsetup Hin).
    + apply In_engineTrace in Hin as [_ [_ ->]]. congruence.
  - assert (Henv : env = env1).
    { split_in Hin; try discriminate.
      + exfalso. exact (engine_not_in_setup _ _ _ _ _ _ _ _ _ Hsetup Hin).
      + apply In_engineTrace in Hin. tauto.
      + apply In_pruneTrace in Hin. tauto.
      + exfalso. exact (engine_not_in_metrics _ _ _ _ _ Hin). }
    subst env1. clear Hin.
    split; [reflexivity|]. split; [reflexivity|]. split; [reflexivity|]. split.
    + exists ([EvTryLock (lockPath cfg w); EvLookPath (enginePath cfg); EvPmset pmsetArgs]
              ++ t1).
      unfold engineTrace at 1.
      change ("backup" :: tl (backupArgs cfg w)) with (backupArgs cfg w).
      rewrite Hok. unfold lineEvents. cbn [app]. rewrite <- ?app_assoc. reflexivity.
    + rewrite !count_app, (count_setup_trace _ _ _ _ _ _ _ Hsetup) by reflexivity.
      rewrite count_engineTrace, count_pruneTrace, count_metricsTrace by reflexivity.
      reflexivity.
Qed.

Lemma backup_success_completes_witness :
  exitStatus (outcome (run Scenario.cfg Scenario.forgetFails Scenario.env0)) = 0%Z
  /\ count isUnlock (trace (run Scenario.cfg Scenario.forgetFails Scenario.env0)) = 1.
Proof.
  destruct (backup_success_completes Scenario.cfg Scenario.forgetFails Scenario.env0
              (finalEnv (run Scenario.cfg Scenario.forgetFails Scenario.env0))
              "snapshot 1a2b3c saved" EmptyString)
    as [_ [Hexit [_ [_ Hunlock]]]].
  - in_explicit.
  - reflexivity.
  - split; [exact Hexit | exact Hunlock].
Defined.

Lemma last_event_unique (t0 t0' : list Event) (x y : Event) :
  t0 ++ [x] = t0' ++ [y] -> x = y.
Proof. intros H. apply app_inj_tail in H. tauto. Qed.

(** X4. No silent failure: the exit status of a run is 0 or 1, and it is 1
    exactly when the last thing the process did was to write an entry at
    error or fatal level. *)
Theorem exit_one_iff_last_entry_is_error (cfg : Config) (w : World)
    (env0 : gmap string string) :
  (exitStatus (outcome (run cfg w env0)) = 0%Z
   \/ exitStatus (outcome (run cfg w env0)) = 1%Z)
  /\ (exitStatus (outcome (run cfg w env0)) = 1%Z
      <-> exists t0 x,
            trace (run cfg w env0) = t0 ++ [EvLog x]
            /\ (level x = ErrorLevel \/ level x = FatalLevel)).
Proof.
  by_path cfg w env0.
  - split; [right; reflexivity|]. split; [intros _|reflexivity].
    exists [EvTryLock (lockPath cfg w)], (lockErrorEntry e). split; [reflexivity|].
    left. reflexivity.
  - split; [left; reflexivity|]. split; [discriminate|].
    intros [t0 [x [Ht [Hx|Hx]]]];
      apply (last_event_unique [EvTryLock (lockPath cfg w)]) in Ht;
      injection Ht as <-; discriminate.
  - split; [left; reflexivity|]. split; [discriminate|].
    intros [t0 [x [Ht _]]].
    apply (last_event_unique [EvTryLock (lockPath cfg w); EvLookPath (enginePath cfg);
                              EvLog (noEngineEntry cfg); EvCancel]) in Ht.
    discriminate.
  - split; [left; reflexivity|]. split; [discriminate|].
    intros [t0 [x [Ht _]]].
    apply (last_event_unique [EvTryLock (lockPath cfg w); EvLookPath (enginePath cfg);
                              EvPmset pmsetArgs; EvLog (powerErrorEntry e); EvCancel]) in Ht.
    discriminate.
  - split; [left; reflexivity|]. split; [discriminate|].
    intros [t0 [x [Ht _]]].
    apply (last_event_unique [EvTryLock (lockPath cfg w); EvLookPath (enginePath cfg);
                              EvPmset pmsetArgs; EvLog onBatteryEntry; EvCancel]) in Ht.
    discriminate.
  - split; [right; reflexivity|]. split; [intros _|reflexivity].
    pose proof (setenvAll_exit_last cfg w secretTable env0) as Hlast.
    rewrite <- setupEnv_setenvAll, Hsetup in Hlast.
    destruct (Hlast eq_refl) as [t0 [args [out [e [_ Ht]]]]].
    cbn [traceOf snd] in Ht. subst t1.
    exists ([EvTryLock (lockPath cfg w); EvLookPath (enginePath cfg); EvPmset pmsetArgs]
            ++ t0 ++ [EvSecurity args]), (fatalEntry (SecurityService cfg) e).
    split; [|right; reflexivity].
    cbn [app]. rewrite <- ?app_assoc. reflexivity.
  - split; [right; reflexivity|]. split; [intros _|reflexivity].
    exists ([EvTryLock (lockPath cfg w); EvLookPath (enginePath cfg); EvPmset pmsetArgs]
            ++ t1 ++ engineTrace cfg w "backup" (tl (backupArgs cfg w)) env1),
      (commandFailedEntry cfg "backup" "Backup failed").
    split; [|left; reflexivity].
    cbn [app]. rewrite <- ?app_assoc. reflexivity.
  - split; [left; reflexivity|]. split; [discriminate|].
    intros [t0 [x [Ht _]]].
    assert (Heq : ([EvTryLock (lockPath cfg w); EvLookPath (enginePath cfg);
                    EvPmset pmsetArgs]
                   ++ t1 ++ engineTrace cfg w "backup" (tl (backupArgs cfg w)) env1
                   ++ pruneTrace cfg w env1 ++ metricsTrace cfg w
                   ++ [EvLog (completedEntry w); EvCancel]) ++ [EvUnlock (lockPath cfg w)]
                  = t0 ++ [EvLog x]).
    { rewrite <- Ht. cbn [app]. rewrite <- ?app_assoc. cbn [app]. reflexivity. }
    apply last_event_unique in Heq. discriminate.
Qed.

(** X5. A run changes no environment variable outside the five of
    [setupEnv], and a run in which no variable was set ends with the
    environment it started with. *)
Theorem run_environment_frame (cfg : Config) (w : World) (env0 : gmap string string) :
  (forall k, ~ In k secretVars -> finalEnv (run cfg w env0) !! k = env0 !! k)
  /\ (count isSetenv (trace (run cfg w env0)) = 0 -> finalEnv (run cfg w env0) = env0).
Proof.
  assert (Hframe : forall o env1 t1 k,
             setupEnv cfg w env0 = (o, env1, t1) -> ~ In k secretVars ->
             env1 !! k = env0 !! k).
  { intros o env1 t1 k Hsetup Hk.
    pose proof (setenvAll_frame cfg w secretTable env0 k Hk) as H.
    rewrite <- setupEnv_setenvAll, Hsetup in H. exact H. }
  assert (Hsame : forall o env1 t1,
             setupEnv cfg w env0 = (o, env1, t1) -> count isSetenv t1 = 0 -> env1 = env0).
  { intros o env1 t1 Hsetup Hc.
    pose proof (setenvAll_untouched cfg w secretTable env0) as H.
    rewrite <- setupEnv_setenvAll, Hsetup in H. exact (H Hc). }
  by_path cfg w env0; (split; [intros k Hk; try reflexivity; eauto|]);
    try reflexivity; rewrite ?count_app; intros Hc; eapply Hsame; eauto; lia.
Qed.

(** X6. With the lock acquired, the two deferred calls of [main], the
    cancellation of the context and the [Unlock], each run exactly once when
    [main] returns and not at all when the process is ended by [os.Exit]. *)
Theorem deferred_calls_iff_main_returns (cfg : Config) (w : World)
    (env0 : gmap string string) :
  flock_TryLock w (lockPath cfg w) = (true, None) ->
  let n := match outcome (run cfg w env0) with
           | OsExit _ => 0
           | _ => 1
           end in
  count isUnlock (trace (run cfg w env0)) = n
  /\ count isCancel (trace (run cfg w env0)) = n.
Proof.
  intros Hlock. cbv zeta.
  by_path cfg w env0; try congruence;
    rewrite ?count_app, ?(count_setup_trace _ _ _ _ _ _ _ Hsetup),
      ?count_engineTrace, ?count_pruneTrace, ?count_metricsTrace by reflexivity;
    split; reflexivity.
Qed.

Lemma deferred_calls_iff_main_returns_witness :
  count isUnlock (trace (run Scenario.cfg Scenario.onBattery Scenario.env0)) = 1
  /\ count isCancel (trace (run Scenario.cfg Scenario.backupFails Scenario.env0)) = 0.
Proof.
  split.
  - destruct (deferred_calls_iff_main_returns Scenario.cfg Scenario.onBattery
                Scenario.env0 eq_refl) as [H _]. exact H.
  - destruct (deferred_calls_iff_main_returns Scenario.cfg Scenario.backupFails
                Scenario.env0 eq_refl) as [_ H]. exact H.
Defined.

(** X7. Every run starts with its one and only lock attempt, and a run never
    releases a lock it does not hold: an [Unlock] occurs only after
    [TryLock] answered "locked" without an error, it concerns the lock file
    of the attempt, and it is the last event of the run, right after the
    cancellation of the context. *)
Theorem lock_discipline (cfg : Config) (w : World) (env0 : gmap string string) :
  head (trace (run cfg w env0)) = Some (EvTryLock (lockPath cfg w))
  /\ count isTryLock (trace (run cfg w env0)) = 1
  /\ (forall path,
        In (EvUnlock path) (trace (run cfg w env0)) ->
        flock_TryLock w (lockPath cfg w) = (true, None)
        /\ path = lockPath cfg w
        /\ exists t0, trace (run cfg w env0) = t0 ++ [EvCancel; EvUnlock path]).
Proof.
  assert (Hnot : forall o env1 t1 path,
             setupEnv cfg w env0 = (o, env1, t1) -> ~ In (EvUnlock path) t1).
  { intros o env1 t1 path Hsetup.
    apply (count_zero_not_In isUnlock); [|reflexivity].
    exact (count_setup_trace _ _ _ _ _ _ _ Hsetup
             (fun _ => eq_refl) (fun _ _ => eq_refl) (fun _ => eq_refl)). }
  by_path cfg w env0; (split; [reflexivity|]); (split; [|intros path Hin]);
    rewrite ?count_app, ?(count_setup_trace _ _ _ _ _ _ _ Hsetup),
      ?count_engineTrace, ?count_pruneTrace, ?count_metricsTrace by reflexivity;
    try reflexivity.
  - split_in Hin; discriminate.
  - split_in Hin; discriminate.
  - split_in Hin; try discriminate. injection Hin as <-.
    split; [exact Hl|]. split; [reflexivity|].
    exists [EvTryLock (lockPath cfg w); EvLookPath (enginePath cfg);
            EvLog (noEngineEntry cfg)]. reflexivity.
  - split_in Hin; try discriminate. injection Hin as <-.
    split; [exact Hl|]. split; [reflexivity|].
    exists [EvTryLock (lockPath cfg w); EvLookPath (enginePath cfg);
            EvPmset pmsetArgs; EvLog (powerErrorEntry e)]. reflexivity.
  - split_in Hin; try discriminate. injection Hin as <-.
    split; [exact Hl|]. split; [reflexivity|].
    exists [EvTryLock (lockPath cfg w); EvLookPath (enginePath cfg);
            EvPmset pmsetArgs; EvLog onBatteryEntry]. reflexivity.
  - exfalso. split_in Hin; try discriminate. exact (Hnot _ _ _ _ Hsetup Hin).
  - exfalso. split_in Hin; try discriminate.
    + exact (Hnot _ _ _ _ Hsetup Hin).
    + revert Hin. apply (count_zero_not_In isUnlock); [|reflexivity].
      apply count_engineTrace. reflexivity.
  - split_in Hin; try discriminate.
    + exfalso. exact (Hnot _ _ _ _ Hsetup Hin).
    + exfalso. revert Hin. apply (count_zero_not_In isUnlock); [|reflexivity].
      apply count_engineTrace. reflexivity.
    + exfalso. revert Hin. apply (count_zero_not_In isUnlock); [|reflexivity].
      apply count_pruneTrace; reflexivity.
    + exfalso. revert Hin. apply (count_zero_not_In isUnlock); [|reflexivity].
      apply count_metricsTrace; reflexivity.
    + injection Hin as <-.
      split; [exact Hl|]. split; [reflexivity|].
      exists ([EvTryLock (lockPath cfg w); EvLookPath (enginePath cfg); EvPmset pmsetArgs]
              ++ t1 ++ engineTrace cfg w "backup" (tl (backupArgs cfg w)) env1
              ++ pruneTrace cfg w env1 ++ metricsTrace cfg w ++ [EvLog (completedEntry w)]).
      cbn [app]. rewrite <- ?app_assoc. cbn [app]. reflexivity.
Qed.

(** ** Further properties of the helpers *)

Lemma setenvAll_queries cfg w tbl env :
  let qs := map (fun row => securityArgs (SecurityService cfg) row.1) tbl in
  let r := setenvAll cfg w tbl env in
  (outcomeOf r = Returns tt ->
   securityQueries (traceOf r) = qs
   /\ Forall (fun a => (security_CombinedOutput w a).2 = None) qs
   /\ entries (traceOf r) = [])
  /\ (outcomeOf r = OsExit 1 ->
      exists done a rest e,
        qs = done ++ a :: rest
        /\ securityQueries (traceOf r) = done ++ [a]
        /\ Forall (fun a => (security_CombinedOutput w a).2 = None) done
        /\ (security_CombinedOutput w a).2 = Some e
        /\ entries (traceOf r) = [fatalEntry (SecurityService cfg) e]).
Proof.
  cbv zeta. revert env. induction tbl as [|[account var] rest IH]; intros env.
  - split; [intros _; repeat split; constructor | discriminate].
  - cbn [map fst]. setenv_row cfg w IH.
    + split; [discriminate|]. intros _.
      exists [], (securityArgs (SecurityService cfg) account),
        (map (fun row => securityArgs (SecurityService cfg) row.1) rest), e.
      rewrite Hsec. repeat split. constructor.
    + destruct IH as [IHok IHexit]. split.
      * intros Ho. destruct (IHok Ho) as [Hq [Hall Hent]].
        split; [|split].
        -- cbn. unfold securityQueries in Hq. rewrite Hq. reflexivity.
        -- constructor; [rewrite Hsec; reflexivity | exact Hall].
        -- exact Hent.
      * intros Ho. destruct (IHexit Ho) as [done [a [rest' [e [Hqs [Hq [Hall [Hfail Hent]]]]]]]].
        exists (securityArgs (SecurityService cfg) account :: done), a, rest', e.
        split; [rewrite Hqs; reflexivity|]. split; [|split; [|split]].
        -- cbn. unfold securityQueries in Hq. rewrite Hq. reflexivity.
        -- constructor; [rewrite Hsec; reflexivity | exact Hall].
        -- exact Hfail.
        -- exact Hent.
Qed.

(** X8. [setupEnv] queries the keychain in the fixed order of the source
    and stops at the first query that fails.  When it returns, all five
    queries were made, all succeeded, and nothing was logged.  When it ends
    the process, the queries made are an initial part of the five, the last
    of them failed and all before it succeeded, and the log holds one entry,
    the fatal one, which carries the error and the service name and nothing
    of what the keychain printed. *)
Theorem setupEnv_queries_in_order (cfg : Config) (w : World) (env : gmap string string) :
  (outcomeOf (setupEnv cfg w env) = Returns tt
   /\ securityQueries (traceOf (setupEnv cfg w env)) = allQueries cfg
   /\ Forall (fun a => (security_CombinedOutput w a).2 = None) (allQueries cfg)
   /\ entries (traceOf (setupEnv cfg w env)) = [])
  \/ (outcomeOf (setupEnv cfg w env) = OsExit 1
      /\ exists done a rest e,
          allQueries cfg = done ++ a :: rest
          /\ securityQueries (traceOf (setupEnv cfg w env)) = done ++ [a]
          /\ Forall (fun a => (security_CombinedOutput w a).2 = None) done
          /\ (security_CombinedOutput w a).2 = Some e
          /\ entries (traceOf (setupEnv cfg w env)) = [fatalEntry (SecurityService cfg) e]).
Proof.
  rewrite setupEnv_setenvAll.
  destruct (setenvAll_queries cfg w secretTable env) as [Hok Hexit].
  destruct (setenvAll_outcome cfg w secretTable env) as [Ho|Ho].
  - left. split; [exact Ho | exact (Hok Ho)].
  - right. split; [exact Ho | exact (Hexit Ho)].
Qed.

(** X9. [sendAwsMetrics] returns the first error it meets, attempts
    [PutMetricData] (with the host name and the duration it was given) only
    when the SDK configuration loads, writes exactly one log entry, and
    leaves the environment alone. *)
Theorem sendAwsMetrics_behaviour (cfg : Config) (w : World) (duration : Z)
    (env : gmap string string) :
  outcomeOf (sendAwsMetrics cfg w duration env)
  = Returns (match aws_LoadDefaultConfig w with
             | Some e => Some e
             | None => aws_PutMetricData w
             end)
  /\ envOf (sendAwsMetrics cfg w duration env) = env
  /\ List.filter isMetrics (traceOf (sendAwsMetrics cfg w duration env))
     = match aws_LoadDefaultConfig w with
       | Some _ => [EvLoadAwsConfig]
       | None => [EvLoadAwsConfig; EvPutMetricData (HostName cfg) duration]
       end
  /\ (exists x,
        entries (traceOf (sendAwsMetrics cfg w duration env)) = [x]
        /\ level x = match aws_LoadDefaultConfig w, aws_PutMetricData w with
                     | None, None => InfoLevel
                     | _, _ => ErrorLevel
                     end).
Proof.
  unfold sendAwsMetrics, bind, emit.
  destruct (aws_LoadDefaultConfig w) as [e|]; [|destruct (aws_PutMetricData w) as [e|]];
    repeat split; eexists; split; reflexivity.
Qed.


(** X11. The engine is invoked at most twice in a run, and the retention
    command only with cleanup enabled and after a backup that succeeded in
    the same environment. *)
Theorem forget_only_after_successful_backup (cfg : Config) (w : World)
    (env0 : gmap string string) :
  count isEngine (trace (run cfg w env0)) <= 2
  /\ (CleanupOldBackups cfg = false -> count isEngine (trace (run cfg w env0)) <= 1)
  /\ (forall path env,
        In (EvEngine path forgetArgs env) (trace (run cfg w env0)) ->
        CleanupOldBackups cfg = true
        /\ (restic_Run w (enginePath cfg) (backupArgs cfg w) env).2 = None
        /\ exists t0 t1 t2,
            trace (run cfg w env0)
            = t0 ++ EvEngine (enginePath cfg) (backupArgs cfg w) env
                 :: t1 ++ EvEngine path forgetArgs env :: t2).
Proof.
  assert (Hprune : count isEngine (pruneTrace cfg w (finalEnv (run cfg w env0)))
                   = if CleanupOldBackups cfg then 1 else 0).
  { unfold pruneTrace. destruct (CleanupOldBackups cfg); [|reflexivity].
    rewrite count_app, count_engineTrace by reflexivity.
    destruct (restic_Run w (enginePath cfg) forgetArgs _) as [[so se] [e|]]; reflexivity. }
  revert Hprune.
  by_path cfg w env0; intros Hprune;
    (split; [|split; [intros Hoff|intros path env Hin]]);
    rewrite ?count_app, ?(count_setup_trace _ _ _ _ _ _ _ Hsetup),
      ?count_engineTrace, ?Hprune, ?count_metricsTrace by reflexivity;
    try (cbn; lia);
    try (destruct (CleanupOldBackups cfg); cbn; (lia || discriminate));
    try (exfalso; split_in Hin; discriminate).
  - exfalso. split_in Hin; try discriminate.
    exact (engine_not_in_setup _ _ _ _ _ _ _ _ _ Hsetup Hin).
  - exfalso. split_in Hin; try discriminate.
    + exact (engine_not_in_setup _ _ _ _ _ _ _ _ _ Hsetup Hin).
    + apply In_engineTrace in Hin as [_ [Hargs _]].
      exact (backupArgs_forgetArgs cfg w (eq_sym Hargs)).
  - split_in Hin; try discriminate.
    + exfalso. exact (engine_not_in_setup _ _ _ _ _ _ _ _ _ Hsetup Hin).
    + exfalso. apply In_engineTrace in Hin as [_ [Hargs _]].
      exact (backupArgs_forgetArgs cfg w (eq_sym Hargs)).
    + pose proof Hin as Hin'.
      apply In_pruneTrace in Hin' as [Hon [-> [_ ->]]].
      split; [exact Hon|]. split; [rewrite Hrun; reflexivity|].
      unfold pruneTrace. rewrite Hon. unfold engineTrace.
      change ("backup" :: tl (backupArgs cfg w)) with (backupArgs cfg w).
      change ("forget" :: tl forgetArgs) with forgetArgs.
      rewrite Hrun.
      destruct (restic_Run w (enginePath cfg) forgetArgs env1) as [[so se] [e|]].
      * exists ([EvTryLock (lockPath cfg w); EvLookPath (enginePath cfg);
                 EvPmset pmsetArgs] ++ t1),
          (lineEvents cfg InfoLevel "backup" stdout),
          ((lineEvents cfg ErrorLevel "forget" se ++ [EvLog (failedEntry cfg "forget" e)])
           ++ [EvLog (commandFailedEntry cfg "forget" "Forget failed")]
           ++ metricsTrace cfg w
           ++ [EvLog (completedEntry w); EvCancel; EvUnlock (lockPath cfg w)]).
        cbn [app]. rewrite <- ?app_assoc. cbn [app]. reflexivity.
      * exists ([EvTryLock (lockPath cfg w); EvLookPath (enginePath cfg);
                 EvPmset pmsetArgs] ++ t1),
          (lineEvents cfg InfoLevel "backup" stdout),
          (lineEvents cfg InfoLevel "forget" so
           ++ metricsTrace cfg w
           ++ [EvLog (completedEntry w); EvCancel; EvUnlock (lockPath cfg w)]).
        cbn [app]. rewrite <- ?app_assoc. cbn [app]. rewrite ?app_nil_r. reflexivity.
    + exfalso. exact (engine_not_in_metrics _ _ _ _ _ Hin).
Qed.

(** X12. Splitting at newlines loses nothing: the pieces hold no newline,
    and joined with newlines they give back the buffer.  So the lines
    [runResticCommand] iterates over are exactly the newline-separated
    segments of the trimmed buffer. *)
Theorem SplitLines_JoinLines (s : string) :
  JoinLines (SplitLines s) = s
  /\ Forall (fun piece => hasNewline piece = false) (SplitLines s)
  /\ length (SplitLines s)
     = S (length (List.filter (fun c => Ascii.eqb c newline) (list_ascii_of_string s))).
Proof.
  split; [|split; [apply SplitLines_no_newline|]].
  - induction s as [|c r IH]; [reflexivity|].
    cbn [SplitLines]. destruct (Ascii.eqb c newline) eqn:Hc.
    + apply Ascii.eqb_eq in Hc. subst c.
      pose proof (SplitLines_nonempty r) as Hne.
      destruct (SplitLines r) as [|h t]; [contradiction|].
      change (JoinLines (EmptyString :: h :: t))
        with (EmptyString +:+ String newline (JoinLines (h :: t))).
      rewrite IH. reflexivity.
    + pose proof (SplitLines_nonempty r) as Hne.
      destruct (SplitLines r) as [|h [|h' t]]; [contradiction| |].
      * cbn [JoinLines] in *. rewrite IH. reflexivity.
      * change (JoinLines (String c h :: h' :: t))
          with (String c (h +:+ String newline (JoinLines (h' :: t)))).
        change (JoinLines (h :: h' :: t))
          with (h +:+ String newline (JoinLines (h' :: t))) in IH.
        rewrite IH. reflexivity.
  - induction s as [|c r IH]; [reflexivity|].
    cbn [SplitLines list_ascii_of_string List.filter].
    destruct (Ascii.eqb c newline).
    + cbn [length]. rewrite IH. reflexivity.
    + pose proof (SplitLines_nonempty r) as Hne.
      destruct (SplitLines r) as [|h t]; [contradiction|]. exact IH.
Qed.

(** X13. Each invocation by [runResticCommand] with a non-empty argument
    list starts exactly one engine process, and every entry it writes is
    tagged with the engine path as [cmd] and the first argument as
    [operation], has a non-empty message and holds no newline: one log
    event per line. *)
Theorem runner_entries_tagged_single_line (cfg : Config) (w : World) (op : string)
    (args : list string) (env : gmap string string) :
  count isEngine (traceOf (runResticCommand cfg w (op :: args) env)) = 1
  /\ Forall (fun x =>
               In ("cmd", VStr (enginePath cfg)) (fields x)
               /\ In ("operation", VStr op) (fields x)
               /\ message x <> EmptyString
               /\ hasNewline (message x) = false)
            (entries (traceOf (runResticCommand cfg w (op :: args) env))).
Proof.
  rewrite runResticCommand_trace. cbn [traceOf snd].
  split; [rewrite count_engineTrace; reflexivity|].
  assert (Hlines : forall lvl buffer,
             Forall (fun x =>
                       In ("cmd", VStr (enginePath cfg)) (fields x)
                       /\ In ("operation", VStr op) (fields x)
                       /\ message x <> EmptyString
                       /\ hasNewline (message x) = false)
                    (map (lineEntry cfg lvl op) (nonEmptyLines buffer))).
  { intros lvl buffer. apply List.Forall_forall. intros x Hx.
    apply in_map_iff in Hx as [line [<- Hline]]. cbn [lineEntry fields message].
    split; [left; reflexivity|]. split; [right; left; reflexivity|].
    unfold nonEmptyLines in Hline. apply filter_In in Hline as [Hpiece Hne].
    split.
    - intros ->. discriminate Hne.
    - pose proof (SplitLines_no_newline (TrimSpace buffer)) as Hall.
      rewrite List.Forall_forall in Hall. exact (Hall line Hpiece). }
  rewrite entries_engineTrace.
  destruct (restic_Run w (enginePath cfg) (op :: args) env) as [[stdout stderr] [e|]].
  - apply Forall_app. split; [apply Hlines|].
    constructor; [|constructor]. cbn [failedEntry fields message].
    split; [left; reflexivity|]. split; [right; left; reflexivity|].
    split; [discriminate | reflexivity].
  - apply Hlines.
Qed.

(** ** White-space trimming *)

Lemma SpaceRunes_app l1 l2 : SpaceRunes l1 -> SpaceRunes l2 -> SpaceRunes (l1 ++ l2).
Proof.
  intros H1 H2. induction H1; cbn [app]; [exact H2| | |].
  - apply SpaceRunes_ascii; assumption.
  - apply SpaceRunes_two; assumption.
  - apply SpaceRunes_three; assumption.
Qed.

Lemma SpaceRunesRev_rev l : SpaceRunesRev l -> SpaceRunes (rev l).
Proof.
  intros H. induction H; cbn [rev]; rewrite <- ?app_assoc; cbn [app].
  - constructor.
  - apply SpaceRunes_app; [assumption|]. apply SpaceRunes_ascii; [assumption|constructor].
  - apply SpaceRunes_app; [assumption|]. apply SpaceRunes_two; [assumption|constructor].
  - apply SpaceRunes_app; [assumption|]. apply SpaceRunes_three; [assumption|constructor].
Qed.

Lemma trimLeft_spec fuel l :
  length l <= fuel ->
  exists pre,
    l = pre ++ trimLeft fuel l
    /\ SpaceRunes pre
    /\ startsWithSpace (trimLeft fuel l) = false.
Proof.
  revert l. induction fuel as [|fuel IH]; intros l Hlen.
  - destruct l; [|cbn in Hlen; lia]. exists []. repeat split. constructor.
  - cbn [trimLeft]. destruct l as [|a r1].
    { exists []. repeat split. constructor. }
    cbn [length] in Hlen.
    destruct (asciiSpace a) eqn:Ha.
    { destruct (IH r1 ltac:(lia)) as [pre [Heq [Hpre Hstart]]].
      exists (a :: pre). split; [cbn [app]; rewrite <- Heq; reflexivity|].
      split; [apply SpaceRunes_ascii; assumption | exact Hstart]. }
    destruct r1 as [|b r2].
    { exists []. repeat split; [constructor | cbn; rewrite Ha; reflexivity]. }
    cbn [length] in Hlen.
    destruct (utf8Space2 a b) eqn:Hab.
    { destruct (IH r2 ltac:(lia)) as [pre [Heq [Hpre Hstart]]].
      exists (a :: b :: pre). split; [cbn [app]; rewrite <- Heq; reflexivity|].
      split; [apply SpaceRunes_two; assumption | exact Hstart]. }
    destruct r2 as [|c r3].
    { exists []. repeat split; [constructor | cbn; rewrite Ha, Hab; reflexivity]. }
    cbn [length] in Hlen.
    destruct (utf8Space3 a b c) eqn:Habc.
    { destruct (IH r3 ltac:(lia)) as [pre [Heq [Hpre Hstart]]].
      exists (a :: b :: c :: pre). split; [cbn [app]; rewrite <- Heq; reflexivity|].
      split; [apply SpaceRunes_three; assumption | exact Hstart]. }
    exists []. repeat split; [constructor | cbn; rewrite Ha, Hab, Habc; reflexivity].
Qed.

Lemma trimRightRev_spec fuel l :
  length l <= fuel ->
  exists post,
    l = post ++ trimRightRev fuel l
    /\ SpaceRunesRev post
    /\ startsWithSpaceRev (trimRightRev fuel l) = false.
Proof.
  revert l. induction fuel as [|fuel IH]; intros l Hlen.
  - destruct l; [|cbn in Hlen; lia]. exists []. repeat split. constructor.
  - cbn [trimRightRev]. destruct l as [|a r1].
    { exists []. repeat split. constructor. }
    cbn [length] in Hlen.
    destruct (asciiSpace a) eqn:Ha.
    { destruct (IH r1 ltac:(lia)) as [post [Heq [Hpost Hstart]]].
      exists (a :: post). split; [cbn [app]; rewrite <- Heq; reflexivity|].
      split; [apply SpaceRunesRev_ascii; assumption | exact Hstart]. }
    destruct r1 as [|b r2].
    { exists []. repeat split; [constructor | cbn; rewrite Ha; reflexivity]. }
    cbn [length] in Hlen.
    destruct (utf8Space2 b a) eqn:Hab.
    { destruct (IH r2 ltac:(lia)) as [post [Heq [Hpost Hstart]]].
      exists (a :: b :: post). split; [cbn [app]; rewrite <- Heq; reflexivity|].
      split; [apply SpaceRunesRev_two; assumption | exact Hstart]. }
    destruct r2 as [|c r3].
    { exists []. repeat split; [constructor | cbn; rewrite Ha, Hab; reflexivity]. }
    cbn [length] in Hlen.
    destruct (utf8Space3 c b a) eqn:Habc.
    { destruct (IH r3 ltac:(lia)) as [post [Heq [Hpost Hstart]]].
      exists (a :: b :: c :: post). split; [cbn [app]; rewrite <- Heq; reflexivity|].
      split; [apply SpaceRunesRev_three; assumption | exact Hstart]. }
    exists []. repeat split; [constructor | cbn; rewrite Ha, Hab, Habc; reflexivity].
Qed.

Lemma trimLeft_fixed fuel l : startsWithSpace l = false -> trimLeft fuel l = l.
Proof.
  intros H. destruct fuel as [|fuel]; [reflexivity|]. cbn [trimLeft].
  destruct l as [|a r1]; [reflexivity|]. cbn [startsWithSpace] in H.
  destruct (asciiSpace a); [discriminate|]. destruct r1 as [|b r2]; [reflexivity|].
  destruct (utf8Space2 a b); [discriminate|]. destruct r2 as [|c r3]; [reflexivity|].
  cbn [orb] in H. rewrite H. reflexivity.
Qed.

Lemma trimRightRev_fixed fuel l : startsWithSpaceRev l = false -> trimRightRev fuel l = l.
Proof.
  intros H. destruct fuel as [|fuel]; [reflexivity|]. cbn [trimRightRev].
  destruct l as [|a r1]; [reflexivity|]. cbn [startsWithSpaceRev] in H.
  destruct (asciiSpace a); [discriminate|]. destruct r1 as [|b r2]; [reflexivity|].
  destruct (utf8Space2 b a); [discriminate|]. destruct r2 as [|c r3]; [reflexivity|].
  cbn [orb] in H. rewrite H. reflexivity.
Qed.

Lemma startsWithSpace_app l x : startsWithSpace l = true -> startsWithSpace (l ++ x) = true.
Proof.
  destruct l as [|a r1]; [discriminate|]. cbn [startsWithSpace app].
  destruct (asciiSpace a); [reflexivity|]. cbn [orb].
  destruct r1 as [|b r2]; [discriminate|]. cbn [app].
  destruct (utf8Space2 a b); [reflexivity|]. cbn [orb].
  destruct r2 as [|c r3]; [discriminate|]. cbn [app]. auto.
Qed.

Lemma string_of_list_ascii_app l1 l2 :
  string_of_list_ascii (l1 ++ l2) = string_of_list_ascii l1 +:+ string_of_list_ascii l2.
Proof. induction l1 as [|a l1 IH]; [reflexivity|]. cbn. rewrite IH. reflexivity. Qed.

(** The parts of a string around its trimmed core. *)
Lemma TrimSpace_parts (s : string) :
  exists pre post,
    s = string_of_list_ascii pre +:+ TrimSpace s +:+ string_of_list_ascii post
    /\ SpaceRunes pre /\ SpaceRunes post
    /\ startsWithSpace (list_ascii_of_string (TrimSpace s)) = false
    /\ endsWithSpace (list_ascii_of_string (TrimSpace s)) = false.
Proof.
  unfold TrimSpace.
  set (l := list_ascii_of_string s).
  destruct (trimLeft_spec (length l) l (le_n _)) as [pre [Hl [Hpre Hstart]]].
  set (l1 := trimLeft (length l) l) in *.
  destruct (trimRightRev_spec (length (rev l1)) (rev l1) (le_n _))
    as [postR [Hr [Hpost Hend]]].
  set (r := trimRightRev (length (rev l1)) (rev l1)) in *.
  assert (Hl1 : l1 = rev r ++ rev postR).
  { rewrite <- rev_app_distr, <- Hr, rev_involutive. reflexivity. }
  exists pre, (rev postR).
  rewrite !list_ascii_of_string_of_list_ascii.
  split; [|split; [exact Hpre|split; [apply SpaceRunesRev_rev; exact Hpost|split]]].
  - rewrite <- !string_of_list_ascii_app, <- Hl1, <- Hl.
    unfold l. symmetry. apply string_of_list_ascii_of_string.
  - destruct (startsWithSpace (rev r)) eqn:Hs; [|reflexivity].
    apply (startsWithSpace_app _ (rev postR)) in Hs. rewrite <- Hl1 in Hs. congruence.
  - unfold endsWithSpace. rewrite rev_involutive. exact Hend.
Qed.

(** X14. [TrimSpace] removes white space at the two ends and nothing else:
    the input is a run of white-space runes, the result, and another run of
    white-space runes; the result neither begins nor ends with a white-space
    rune; and trimming a second time changes nothing. *)
Theorem TrimSpace_spec (s : string) :
  (exists pre post,
     s = string_of_list_ascii pre +:+ TrimSpace s +:+ string_of_list_ascii post
     /\ SpaceRunes pre /\ SpaceRunes post)
  /\ startsWithSpace (list_ascii_of_string (TrimSpace s)) = false
  /\ endsWithSpace (list_ascii_of_string (TrimSpace s)) = false
  /\ TrimSpace (TrimSpace s) = TrimSpace s.
Proof.
  destruct (TrimSpace_parts s) as [pre [post [Hs [Hpre [Hpost [Hstart Hend]]]]]].
  split; [exists pre, post; repeat split; assumption|].
  split; [exact Hstart|]. split; [exact Hend|].
  unfold TrimSpace at 1.
  rewrite (trimLeft_fixed _ _ Hstart).
  unfold endsWithSpace in Hend. rewrite (trimRightRev_fixed _ _ Hend).
  rewrite rev_involutive. apply string_of_list_ascii_of_string.
Qed.

(** X15. A keychain query that succeeds makes [getSecurityData] return the
    output with the white space at its two ends removed, the final newline
    included, and nothing else changed; the environment is untouched and
    nothing is logged. *)
Theorem getSecurityData_returns_trimmed (w : World) (service account : string)
    (env : gmap string string) (out : string) :
  security_CombinedOutput w (securityArgs service account) = (out, None) ->
  exists v pre post,
    getSecurityData w service account env
    = (Returns v, env, [EvSecurity (securityArgs service account)])
    /\ out = string_of_list_ascii pre +:+ v +:+ string_of_list_ascii post
    /\ SpaceRunes pre /\ SpaceRunes post
    /\ startsWithSpace (list_ascii_of_string v) = false
    /\ endsWithSpace (list_ascii_of_string v) = false.
Proof.
  intros Hok.
  destruct (TrimSpace_parts out) as [pre [post [Hout [Hpre [Hpost [Hs He]]]]]].
  exists (TrimSpace out), pre, post.
  rewrite getSecurityData_eq, Hok. repeat split; assumption.
Qed.

Lemma getSecurityData_returns_trimmed_witness :
  outcomeOf (getSecurityData Scenario.allGood "restic_backup" "password" Scenario.env0)
  = Returns "secret-of-password".
Proof.
  destruct (getSecurityData_returns_trimmed Scenario.allGood "restic_backup" "password"
              Scenario.env0 ("secret-of-password" +:+ String newline EmptyString) eq_refl)
    as [v [pre [post [Hrun _]]]].
  rewrite Hrun. cbn [outcomeOf fst]. f_equal.
  vm_compute in Hrun. injection Hrun as <-. reflexivity.
Defined.

(** ** The power marker *)

Lemma prefix_nil s : String.prefix EmptyString s = true.
Proof. destruct s; reflexivity. Qed.

Lemma prefix_cons a m c s :
  String.prefix (String a m) (String c s)
  = if ascii_dec a c then String.prefix m s else false.
Proof. cbn. destruct (ascii_dec a c); reflexivity. Qed.

Lemma prefix_iff m s : String.prefix m s = true <-> exists b, s = m +:+ b.
Proof.
  revert s. induction m as [|a m IH]; intros s.
  - rewrite prefix_nil. split; [intros _; exists s; reflexivity | reflexivity].
  - destruct s as [|c s].
    + split; [discriminate | intros [b Hb]; discriminate].
    + rewrite prefix_cons. destruct (ascii_dec a c) as [->|Hne].
      * rewrite IH. split; intros [b Hb]; exists b.
        -- cbn. rewrite Hb. reflexivity.
        -- cbn in Hb. injection Hb as ->. reflexivity.
      * split; [discriminate|]. intros [b Hb]. cbn in Hb. injection Hb as Hac _.
        congruence.
Qed.

Lemma Contains_nil m : Contains EmptyString m = String.prefix m EmptyString.
Proof. cbn [Contains]. apply orb_false_r. Qed.

Lemma Contains_cons c s m :
  Contains (String c s) m = String.prefix m (String c s) || Contains s m.
Proof. reflexivity. Qed.

Lemma Contains_iff s m : Contains s m = true <-> exists a b, s = a +:+ m +:+ b.
Proof.
  induction s as [|c s IH].
  - rewrite Contains_nil, prefix_iff. split.
    + intros [b Hb]. exists EmptyString, b. exact Hb.
    + intros [[|x a] [b Hb]]; [exists b; exact Hb | discriminate].
  - rewrite Contains_cons, orb_true_iff, prefix_iff, IH. split.
    + intros [[b Hb]|[a [b Hab]]].
      * exists EmptyString, b. exact Hb.
      * exists (String c a), b. cbn. rewrite Hab. reflexivity.
    + intros [[|x a] [b Hb]].
      * left. exists b. exact Hb.
      * right. cbn in Hb. injection Hb as _ ->. exists a, b. reflexivity.
Qed.

Lemma SpaceRunes_bytes l : SpaceRunes l -> Forall (fun c => plain c = false) l.
Proof.
  assert (Hhigh : forall c, 128 <= nat_of_ascii c -> plain c = false).
  { intros c Hc. unfold plain. apply andb_false_iff. right. apply Nat.ltb_ge. exact Hc. }
  intros H. induction H as [|a l Ha _ IH|a b l Hab _ IH|a b c l Habc _ IH].
  - constructor.
  - constructor; [|exact IH]. unfold plain. rewrite Ha. reflexivity.
  - unfold utf8Space2 in Hab.
    rewrite andb_true_iff, orb_true_iff, !Nat.eqb_eq in Hab.
    repeat constructor; try exact IH; apply Hhigh; lia.
  - unfold utf8Space3 in Habc. cbv zeta in Habc.
    rewrite !orb_true_iff, !andb_true_iff, !orb_true_iff, !andb_true_iff,
      !Nat.eqb_eq, !Nat.leb_le in Habc.
    repeat constructor; try exact IH; apply Hhigh; lia.
Qed.

Lemma append_nil_l (s : string) : EmptyString +:+ s = s.
Proof. reflexivity. Qed.

Lemma append_cons (c : ascii) (a b : string) : String c a +:+ b = String c (a +:+ b).
Proof. reflexivity. Qed.

Lemma lastPlain_nonempty m : lastPlain m = true -> m <> EmptyString.
Proof. intros H ->. discriminate. Qed.

Lemma prefix_of_spaces m post :
  lastPlain m = true -> Forall (fun c => plain c = false) post ->
  String.prefix m (string_of_list_ascii post) = false.
Proof.
  revert post. induction m as [|a m IH]; intros post Hm Hpost; [discriminate|].
  destruct post as [|p post]; [reflexivity|]. cbn [string_of_list_ascii].
  rewrite prefix_cons.
  inversion Hpost as [|? ? Hp Hpost']; subst.
  destruct (ascii_dec a p) as [->|Hne]; [|reflexivity].
  destruct m as [|b m].
  - cbn in Hm. congruence.
  - apply IH; [exact Hm | exact Hpost'].
Qed.

Lemma prefix_app_spaces m y post :
  lastPlain m = true -> Forall (fun c => plain c = false) post ->
  String.prefix m (y +:+ string_of_list_ascii post) = String.prefix m y.
Proof.
  revert m. induction y as [|c y IH]; intros m Hm Hpost.
  - rewrite append_nil_l, prefix_of_spaces by assumption.
    destruct m; [discriminate | reflexivity].
  - destruct m as [|a m]; [discriminate|]. rewrite append_cons, !prefix_cons.
    destruct (ascii_dec a c); [|reflexivity].
    destruct m as [|b m]; [rewrite !prefix_nil; reflexivity|]. apply IH; assumption.
Qed.

Lemma Contains_spaces m post :
  lastPlain m = true -> Forall (fun c => plain c = false) post ->
  Contains (string_of_list_ascii post) m = false.
Proof.
  intros Hm Hpost. induction Hpost as [|p post Hp Hpost IH].
  - cbn [string_of_list_ascii]. rewrite Contains_nil.
    destruct m; [discriminate | reflexivity].
  - cbn [string_of_list_ascii]. rewrite Contains_cons, IH, orb_false_r.
    apply (prefix_of_spaces m (p :: post)); [exact Hm|]. constructor; assumption.
Qed.

Lemma Contains_app_spaces m y post :
  lastPlain m = true -> Forall (fun c => plain c = false) post ->
  Contains (y +:+ string_of_list_ascii post) m = Contains y m.
Proof.
  intros Hm Hpost. induction y as [|c y IH].
  - rewrite append_nil_l, Contains_spaces by assumption.
    rewrite Contains_nil. destruct m; [discriminate | reflexivity].
  - rewrite append_cons, !Contains_cons, IH.
    rewrite <- append_cons, (prefix_app_spaces m (String c y) post) by assumption.
    reflexivity.
Qed.

Lemma Contains_spaces_app m pre x :
  firstPlain m = true -> Forall (fun c => plain c = false) pre ->
  Contains (string_of_list_ascii pre +:+ x) m = Contains x m.
Proof.
  intros Hm Hpre. induction Hpre as [|p pre Hp Hpre IH]; [reflexivity|].
  cbn [string_of_list_ascii]. rewrite append_cons, Contains_cons, IH.
  destruct m as [|a m]; [discriminate|]. rewrite prefix_cons.
  cbn [firstPlain] in Hm.
  destruct (ascii_dec a p) as [->|Hne]; [congruence | reflexivity].
Qed.

(** Trimming does not change whether a marker that begins and ends with a
    plain byte occurs. *)
Lemma Contains_TrimSpace s m :
  firstPlain m = true -> lastPlain m = true ->
  Contains (TrimSpace s) m = Contains s m.
Proof.
  intros Hf Hl.
  destruct (TrimSpace_parts s) as [pre [post [Hs [Hpre [Hpost _]]]]].
  rewrite Hs at 2.
  rewrite Contains_spaces_app by (try apply SpaceRunes_bytes; assumption).
  rewrite Contains_app_spaces by (try apply SpaceRunes_bytes; assumption).
  reflexivity.
Qed.

(** X16. [isOnPower] answers "on AC power" exactly when the text printed by
    the power command holds the marker "AC Power" somewhere, upper and lower
    case as written; the trimming of the text has no influence.  When the
    command fails it answers [false] with the wrapped error.  Either way it
    changes nothing and logs nothing. *)
Theorem isOnPower_marker (w : World) (env : gmap string string) :
  match pmset_Output w with
  | (output, None) =>
      isOnPower w env = (Returns (Contains output "AC Power", None), env, [EvPmset pmsetArgs])
      /\ (Contains output "AC Power" = true
          <-> exists a b, output = a +:+ "AC Power" +:+ b)
  | (_, Some e) =>
      isOnPower w env
      = (Returns (false, Some ("failed to execute pmset: " +:+ e)), env, [EvPmset pmsetArgs])
  end.
Proof.
  unfold isOnPower, bind, emit. fold pmsetArgs.
  destruct (pmset_Output w) as [output [e|]]; [reflexivity|].
  cbn [ret app]. rewrite Contains_TrimSpace by reflexivity.
  split; [reflexivity | apply Contains_iff].
Qed.

(** ** Start-up *)

(** X17. [init] either returns, and then the home directory was found, the
    configuration file was read, it was unmarshalled without error into the
    configuration returned, and the last thing [init] did was to set up
    logging for that configuration; or it ends the process with status 1,
    its last act being a fatal entry, and then one of the three steps failed
    and the log output was never set. *)
Theorem init_returns_or_fatal (s : Startup) :
  let homeDir := (os_UserHomeDir s).1 in
  let paths := [startup_Join s [homeDir; ".restic_backup"]] in
  (exists appConfig t,
     init s = (Returns appConfig, t ++ setupLogging s appConfig)
     /\ existsb isSetOutput t = false
     /\ (os_UserHomeDir s).2 = None
     /\ viper_ReadInConfig s "config" "yaml" paths = None
     /\ viper_Unmarshal s (defaultSettings s homeDir) = (appConfig, None))
  \/ (exists t msg,
        init s = (OsExit 1, t ++ [initFatal msg])
        /\ existsb isSetOutput (t ++ [initFatal msg]) = false
        /\ ((os_UserHomeDir s).2 <> None
            \/ viper_ReadInConfig s "config" "yaml" paths <> None
            \/ (viper_Unmarshal s (defaultSettings s homeDir)).2 <> None)).
Proof.
  cbv zeta. unfold init.
  destruct (os_UserHomeDir s) as [homeDir [e|]]; cbn [fst snd].
  { right. exists [], ("Error getting user home directory:" +:+ e).
    split; [reflexivity|]. split; [reflexivity|]. left. discriminate. }
  set (paths := [startup_Join s [homeDir; ".restic_backup"]]).
  set (t0 := map (fun kv => IvSetDefault kv.1 kv.2) (defaultSettings s homeDir)
             ++ [IvReadInConfig "config" "yaml" paths]).
  destruct (viper_ReadInConfig s "config" "yaml" paths) as [e|] eqn:Hread.
  { right. exists t0, ("Error reading config file: " +:+ e).
    split; [reflexivity|]. split; [reflexivity|]. right. left. discriminate. }
  destruct (viper_Unmarshal s (defaultSettings s homeDir)) as [appConfig [e|]] eqn:Hun.
  - right. exists (t0 ++ [IvUnmarshal]), ("Error unmarshaling config: " +:+ e).
    split; [rewrite <- app_assoc; reflexivity|].
    split; [reflexivity|]. right. right. discriminate.
  - left. exists appConfig, (t0 ++ [IvUnmarshal]).
    split; [rewrite <- app_assoc; reflexivity|]. repeat split.
Qed.

(** X18. [main] runs only when [init] returned, and then with the
    configuration [init] unmarshalled.  In particular a configuration file
    that cannot be read ends the process with status 1 before anything else
    happens, although every setting has a default: there is no run of
    [main], hence no lock attempt and no backup. *)
Theorem no_config_file_no_run (s : Startup) (w : World) (env0 : gmap string string) :
  (forall r,
     (program s w env0).2 = Some r ->
     exists appConfig,
       (init s).1 = Returns appConfig
       /\ (viper_Unmarshal s (defaultSettings s (os_UserHomeDir s).1)) = (appConfig, None)
       /\ r = run appConfig w env0
       /\ programExit s w env0 = exitStatus (outcome r))
  /\ ((program s w env0).2 = None -> programExit s w env0 = 1%Z)
  /\ (forall e,
        (os_UserHomeDir s).2 = None ->
        viper_ReadInConfig s "config" "yaml"
          [startup_Join s [(os_UserHomeDir s).1; ".restic_backup"]] = Some e ->
        (program s w env0).2 = None /\ programExit s w env0 = 1%Z).
Proof.
  unfold program, programExit, init.
  destruct (os_UserHomeDir s) as [homeDir [e|]]; cbn [fst snd].
  { split; [discriminate|]. split; [reflexivity|]. discriminate. }
  destruct (viper_ReadInConfig s "config" "yaml" _) as [e|] eqn:Hread.
  { split; [discriminate|]. split; [reflexivity|]. intros; split; reflexivity. }
  destruct (viper_Unmarshal s (defaultSettings s homeDir)) as [appConfig [e|]] eqn:Hun.
  - split; [discriminate|]. split; [reflexivity|]. discriminate.
  - split; [|split; discriminate].
    intros r Hr. injection Hr as <-. exists appConfig. repeat split.
Qed.

Lemma no_config_file_no_run_witness :
  (program startupNoFile Scenario.allGood Scenario.env0).2 = None
  /\ programExit startupNoFile Scenario.allGood Scenario.env0 = 1%Z
  /\ programExit startupGood Scenario.allGood Scenario.env0 = 0%Z.
Proof.
  destruct (no_config_file_no_run startupNoFile Scenario.allGood Scenario.env0)
    as [_ [_ Hnofile]].
  destruct (Hnofile "Config File Not Found" eq_refl eq_refl) as [Hnone Hexit].
  split; [exact Hnone|]. split; [exact Hexit|].
  destruct (no_config_file_no_run startupGood Scenario.allGood Scenario.env0)
    as [Hsome _].
  destruct (Hsome (run Scenario.cfg Scenario.allGood Scenario.env0) eq_refl)
    as [appConfig [_ [_ [_ Hexit']]]].
  rewrite Hexit'. reflexivity.
Defined.

(** ** Order of the steps of [main] *)

(** X19. The keychain is queried only after every pre-flight check has
    passed: the lock was acquired, the engine executable was found, the
    power check answered, and, when [require_ac_power] is set, its answer
    held the "AC Power" marker. *)
Theorem secrets_only_after_preflight (cfg : Config) (w : World)
    (env0 : gmap string string) (args : list string) :
  In (EvSecurity args) (trace (run cfg w env0)) ->
  flock_TryLock w (lockPath cfg w) = (true, None)
  /\ exec_LookPath w (enginePath cfg) = None
  /\ (pmset_Output w).2 = None
  /\ (RequireAcPower cfg = true -> Contains (pmset_Output w).1 "AC Power" = true)
  /\ exists t0 t1,
      trace (run cfg w env0)
      = [EvTryLock (lockPath cfg w); EvLookPath (enginePath cfg); EvPmset pmsetArgs]
        ++ t0 ++ EvSecurity args :: t1.
Proof.
  assert (Hpower : forall output,
             RequireAcPower cfg && negb (Contains (TrimSpace output) "AC Power") = false ->
             RequireAcPower cfg = true -> Contains output "AC Power" = true).
  { intros output Hreq Hon. rewrite Hon in Hreq. cbn [andb] in Hreq.
    apply negb_false_iff in Hreq. rewrite Contains_TrimSpace in Hreq by reflexivity.
    exact Hreq. }
  assert (Hsplit : forall (t : list Event),
             In (EvSecurity args)
                ([EvTryLock (lockPath cfg w); EvLookPath (enginePath cfg);
                  EvPmset pmsetArgs] ++ t) ->
             exists t0 t1,
               [EvTryLock (lockPath cfg w); EvLookPath (enginePath cfg);
                EvPmset pmsetArgs] ++ t
               = [EvTryLock (lockPath cfg w); EvLookPath (enginePath cfg);
                  EvPmset pmsetArgs] ++ t0 ++ EvSecurity args :: t1).
  { intros t Hin. cbn [app In] in Hin.
    destruct Hin as [Hin|[Hin|[Hin|Hin]]]; try discriminate.
    apply in_split in Hin as [t0 [t1 ->]]. exists t0, t1. reflexivity. }
  intros Hin. revert Hin.
  by_path cfg w env0; intros Hin; try (split_in Hin; discriminate);
    rewrite Hpm; cbn [fst snd];
    (split; [exact Hl|]); (split; [exact Hlook|]); (split; [reflexivity|]);
    (split; [exact (Hpower _ Hreq)|]); apply Hsplit; exact Hin.
Qed.

Lemma secrets_only_after_preflight_witness :
  exec_LookPath Scenario.repositoryTimeout (enginePath Scenario.cfg) = None
  /\ Contains (pmset_Output Scenario.repositoryTimeout).1 "AC Power" = true.
Proof.
  destruct (secrets_only_after_preflight Scenario.cfg Scenario.repositoryTimeout
              Scenario.env0 (securityArgs "restic_backup" "repository"))
    as [_ [Hlook [_ [Hpower _]]]].
  - in_explicit.
  - split; [exact Hlook | exact (Hpower eq_refl)].
Defined.


Lemma forget_only_after_successful_backup_witness :
  count isEngine (trace (run Scenario.cfg Scenario.allGood Scenario.env0)) <= 2
  /\ CleanupOldBackups Scenario.cfg = true
  /\ count isEngine (trace (run cfgPlain Scenario.allGood Scenario.env0)) <= 1.
Proof.
  destruct (forget_only_after_successful_backup Scenario.cfg Scenario.allGood Scenario.env0)
    as [Htwo [_ Hforget]].
  destruct (Hforget (enginePath Scenario.cfg)
              (finalEnv (run Scenario.cfg Scenario.allGood Scenario.env0)))
    as [Hon _].
  - in_explicit.
  - split; [exact Htwo|]. split; [exact Hon|].
    destruct (forget_only_after_successful_backup cfgPlain Scenario.allGood Scenario.env0)
      as [_ [Hoff _]].
    exact (Hoff eq_refl).
Defined.

Lemma run_environment_frame_witness :
  finalEnv (run Scenario.cfg Scenario.repositoryTimeout Scenario.env0) !! "PATH"
  = Some "/usr/bin:/bin"
  /\ finalEnv (run Scenario.cfg Scenario.onBattery Scenario.env0) = Scenario.env0.
Proof.
  split.
  - destruct (run_environment_frame Scenario.cfg Scenario.repositoryTimeout Scenario.env0)
      as [Hframe _].
    rewrite Hframe; [reflexivity|]. cbn [secretVars In]. intuition discriminate.
  - destruct (run_environment_frame Scenario.cfg Scenario.onBattery Scenario.env0)
      as [_ Hsame].
    apply Hsame. reflexivity.
Defined.

Lemma lock_discipline_witness :
  exists t0,
    trace (run Scenario.cfg Scenario.allGood Scenario.env0)
    = t0 ++ [EvCancel; EvUnlock "/Users/me/.restic_backup/.restic_backup_lock"].
Proof.
  destruct (lock_discipline Scenario.cfg Scenario.allGood Scenario.env0) as [_ [_ H]].
  destruct (H "/Users/me/.restic_backup/.restic_backup_lock") as [_ [_ Ht]].
  - in_explicit.
  - exact Ht.
Defined.
